(** * BOM hierarchy processor (v2.10.0): a shallow embedding and its properties

    The development follows the class [BOMHierarchyProcessor]: the sequence
    normaliser [_reindexLN], the material index [_buildMaterialIndex], the
    nearest-preceding resolver [_findMaterialBeforeLN], the pattern and
    special-rule evaluators, the recursive walk [_traverseHierarchyUnified]
    and the row orchestrator [process].

    Modelling choices.
    - JavaScript numbers are IEEE-754 doubles: usages are primitive floats.
      Levels and sequence numbers are integers ([Z]).
    - Strings are sequences of ASCII code units; [trim] strips the ASCII
      white space characters.
    - [Map] is a [gmap], [Set] is a [gset].
    - [this.visited] is threaded as explicit state; exceptions are an
      explicit abrupt completion, so that [try]/[catch]/[finally] keep
      their meaning. The state also carries a ghost trace of the resolver
      calls, which no computation reads.
    - Console output is not modelled; what [_printStats] evaluates to
      produce it is, since evaluating it can throw.
    - The pure engine works on the rows by value; module [Store] places the
      rows in an object store, to speak of the caller's table and of the
      processor's private copy.
    - The host's [RegExp] is an interface ([RegExpEngine]); one instance
      interprets pipe-separated literal prefixes. *)

From Stdlib Require Import ZArith String Ascii List Bool Floats Lia Sorted.
From stdpp Require Import base option gmap sets list strings sorting.

Local Open Scope string_scope.
Local Open Scope Z_scope.
#[local] Set Warnings "-clear-no-such-hyp".

(** ** JavaScript primitives used by the processor *)

Module JS.

(** White space removed by [String.prototype.trim] (ASCII range). *)
Definition is_ws (c : ascii) : bool :=
  let n := nat_of_ascii c in
  Nat.eqb n 32 || (Nat.leb 9 n && Nat.leb n 13).

Fixpoint trimStart (s : string) : string :=
  match s with
  | EmptyString => EmptyString
  | String c s' => if is_ws c then trimStart s' else s
  end.

Fixpoint trimEnd (s : string) : string :=
  match s with
  | EmptyString => EmptyString
  | String c s' =>
      match trimEnd s' with
      | EmptyString => if is_ws c then EmptyString else String c EmptyString
      | t => String c t
      end
  end.

Definition trim (s : string) : string := trimEnd (trimStart s).

(** [s.split(sep)] for a one-character separator: never empty. *)
Fixpoint split (sep : ascii) (s : string) : list string :=
  match s with
  | EmptyString => [EmptyString]
  | String c s' =>
      if Ascii.eqb c sep then EmptyString :: split sep s'
      else match split sep s' with
           | [] => [String c EmptyString]
           | w :: ws => String c w :: ws
           end
  end.

(** [s.startsWith(p)]. *)
Definition startsWith (s p : string) : bool := String.prefix p s.

(** [x || d] on an integer: [0] is falsy. *)
Definition or_int (x d : Z) : Z := if x =? 0 then d else x.

(** [x || d] on an optional number: absent, [0], [-0] and [NaN] are falsy. *)
Definition or_num (x : option float) (d : float) : float :=
  match x with
  | None => d
  | Some f => if PrimFloat.is_zero f || PrimFloat.is_nan f then d else f
  end.

Definition isNaN (f : float) : bool := PrimFloat.is_nan f.

(** [parseFloat(x)] on a number is [parseFloat(String(x))]: the decimal
    rendering round-trips, except that [-0] prints as ["0"]. *)
Definition parseFloat (f : float) : float :=
  if PrimFloat.is_zero f then PrimFloat.zero else f.

(** A number through [JSON.parse(JSON.stringify(_))]: non-finite numbers
    are written as [null], an absent field stays absent. *)
Definition json_num (x : option float) : option float :=
  match x with
  | None => None
  | Some f => if PrimFloat.is_finite f then Some (parseFloat f) else None
  end.

Inductive Error : Set := TypeError.

(** The completion of a statement: a value, or a thrown exception. *)
Inductive Completion (A : Type) : Type :=
| Normal (a : A)
| Thrown (e : Error).
Arguments Normal {A} a.
Arguments Thrown {A} e.

End JS.

Import JS.

(** The host regular-expression engine: [RegExp_new src] is [new RegExp(src)],
    [None] when the constructor throws a [SyntaxError], otherwise the
    [test] method of the compiled expression. *)
Class RegExpEngine := { RegExp_new : string -> option (string -> bool) }.

(** ** Data model *)

(** One BOM line. [SYS_CPN] and [Ttl_Usage] are the derived columns, absent
    until [process] writes them. A missing or [null] [Unit Usg] is [None]. *)
Record Row := mkRow {
  LV : Z;
  LN : Z;
  Material : string;
  Part_Number : string;
  Unit_Usg : option float;
  SYS_CPN : option string;
  Ttl_Usage : option float
}.

(** A special rule [{lv, prefix}]; a rule object without a string [prefix]
    has [rule_prefix = None]. *)
Record Rule := mkRule { rule_lv : Z; rule_prefix : option string }.

(** [lvSpecialRules]: [null], a single rule object, or an array of rules. *)
Inductive SpecialRules :=
| NoRules
| OneRule (r : Rule)
| RuleArray (rs : list Rule).

(** The fields of the processor that are fixed once constructed. [cache] is
    created by the constructor and never used; it is left out. [visited] is
    in [EngineState] below. *)
Record Processor := mkProcessor {
  data : list Row;
  pattern : string;
  lvSpecialRules : SpecialRules;
  materialPattern : string -> bool;
  materialIndex : gmap string (list nat)
}.

(** One call of the resolver, as observed: the material asked for, the
    exclusive bound and the answer. *)
Record Lookup := mkLookup {
  lk_material : string;
  lk_bound : Z;
  lk_found : option nat
}.

(** The mutable part of the processor during resolution: [this.visited],
    and a ghost trace of the resolver calls, most recent first. The trace is
    written only; nothing reads it. *)
Record EngineState := mkState {
  visited : gset string;
  lookups : list Lookup
}.

Definition initial_state : EngineState := mkState ∅ [].

(** ** Effects: state and exceptions *)

Definition Eff (A : Type) : Type := EngineState -> Completion A * EngineState.

Definition ret {A} (a : A) : Eff A := fun st => (Normal a, st).

Definition throw {A} (e : Error) : Eff A := fun st => (Thrown e, st).

Definition bind {A B} (m : Eff A) (k : A -> Eff B) : Eff B :=
  fun st =>
    match m st with
    | (Normal a, st') => k a st'
    | (Thrown e, st') => (Thrown e, st')
    end.

Definition lift {A} (c : Completion A) : Eff A := fun st => (c, st).

(** [try { body } finally { fin }], for a finaliser that completes normally. *)
Definition try_finally {A} (body : Eff A) (fin : EngineState -> EngineState) : Eff A :=
  fun st => let '(c, st') := body st in (c, fin st').

(** [try { body } catch (e) { handler }]. *)
Definition try_catch {A} (body : Eff A) (handler : Error -> Eff A) : Eff A :=
  fun st =>
    match body st with
    | (Normal a, st') => (Normal a, st')
    | (Thrown e, st') => handler e st'
    end.

Declare Scope eff_scope.
Delimit Scope eff_scope with eff.
Notation "x <- m ;; k" := (bind m (fun x => k))
  (at level 100, m at next level, right associativity) : eff_scope.
Notation "m1 ;;; m2" := (bind m1 (fun _ => m2))
  (at level 100, right associativity) : eff_scope.

Definition visited_has (m : string) : Eff bool :=
  fun st => (Normal (bool_decide (m ∈ visited st)), st).

Definition visited_add (m : string) : Eff unit :=
  fun st => (Normal tt, mkState ({[m]} ∪ visited st) (lookups st)).

Definition visited_delete (m : string) (st : EngineState) : EngineState :=
  mkState (visited st ∖ {[m]}) (lookups st).

Definition visited_clear : Eff unit :=
  fun st => (Normal tt, mkState ∅ (lookups st)).

(** ** Construction *)

Definition set_LN (r : Row) (n : Z) : Row :=
  mkRow (LV r) n (Material r) (Part_Number r) (Unit_Usg r) (SYS_CPN r) (Ttl_Usage r).

Definition set_derived (r : Row) (sysCpn : string) (ttlUsage : float) : Row :=
  mkRow (LV r) (LN r) (Material r) (Part_Number r) (Unit_Usg r)
        (Some sysCpn) (Some ttlUsage).

(** [JSON.parse(JSON.stringify(row))]: a fresh row with the same fields. *)
Definition json_clone_row (r : Row) : Row :=
  mkRow (LV r) (LN r) (Material r) (Part_Number r) (json_num (Unit_Usg r))
        (SYS_CPN r) (json_num (Ttl_Usage r)).

Definition json_clone (rows : list Row) : list Row := map json_clone_row rows.

(** The loop of [_reindexLN]: [this.data[i].LN = sequence++]. *)
Fixpoint reindex_from (sequence : Z) (rows : list Row) : list Row :=
  match rows with
  | [] => []
  | r :: rs => set_LN r sequence :: reindex_from (sequence + 1) rs
  end.

Definition _reindexLN (rows : list Row) : list Row := reindex_from 1 rows.

(** One iteration of [_buildMaterialIndex]. *)
Definition index_row (idx : nat) (row : Row) (index : gmap string (list nat))
  : gmap string (list nat) :=
  let material := trim (Material row) in
  if String.eqb material "" then index
  else match index !! material with
       | None => <[material := [idx]]> index
       | Some indices => <[material := (indices ++ [idx])%list]> index
       end.

Fixpoint build_index_from (idx : nat) (rows : list Row)
  (index : gmap string (list nat)) : gmap string (list nat) :=
  match rows with
  | [] => index
  | row :: rest => build_index_from (S idx) rest (index_row idx row index)
  end.

Definition _buildMaterialIndex (rows : list Row) : gmap string (list nat) :=
  build_index_from 0 rows ∅.

(** The fallback expression [/^$/]. *)
Definition empty_only (s : string) : bool := String.eqb s "".

Definition compile_pattern `{RegExpEngine} (pattern : string) : string -> bool :=
  match RegExp_new (String.append "^(" (String.append pattern ")")) with
  | Some test => test
  | None => empty_only
  end.

(** The object the constructor sets up, field by field (the deep copy, the
    renumbering, the compiled matcher with its fallback, the index). The
    constructor's last statement, the call of [_printStats], assigns nothing;
    it follows, and [BOMHierarchyProcessor_new] is the whole [new]
    expression with its completion. *)
Definition constructor `{RegExpEngine} (input : list Row) (pattern : string)
  (lvSpecialRules : SpecialRules) : Processor :=
  let data := _reindexLN (json_clone input) in
  mkProcessor data pattern lvSpecialRules (compile_pattern pattern)
              (_buildMaterialIndex data).

(** The line [_printStats] prepares for one rule:
    [rule.prefix.split('|').map(p => p.trim())]. Reading [split] off a
    missing prefix throws. *)
Definition rule_display (rule : Rule) : Completion (list string) :=
  match rule_prefix rule with
  | None => Thrown TypeError
  | Some pfx => Normal (map trim (split "|" pfx))
  end.

(** [lvSpecialRules.forEach(rule => ...)] in [_printStats]. *)
Fixpoint display_each (rules : list Rule) : Completion unit :=
  match rules with
  | [] => Normal tt
  | rule :: rest =>
      match rule_display rule with
      | Normal _ => display_each rest
      | Thrown e => Thrown e
      end
  end.

(** [_printStats()]: the counts it prints are total; the rule lines are
    computed outside any [try]. *)
Definition _printStats (p : Processor) : Completion unit :=
  match lvSpecialRules p with
  | NoRules => Normal tt
  | RuleArray rules => display_each rules
  | OneRule rule =>
      match rule_display rule with
      | Normal _ => Normal tt
      | Thrown e => Thrown e
      end
  end.

(** [new BOMHierarchyProcessor(data, pattern, lvSpecialRules)]. *)
Definition BOMHierarchyProcessor_new `{RegExpEngine} (input : list Row)
  (pattern : string) (lvSpecialRules : SpecialRules) : Completion Processor :=
  let this := constructor input pattern lvSpecialRules in
  match _printStats this with
  | Normal _ => Normal this
  | Thrown e => Thrown e
  end.

(** [processor.lvSpecialRules = rules], an assignment by the caller after
    construction: the field is an ordinary property that [process] and the
    traversal read at each call. *)
Definition set_lvSpecialRules (p : Processor) (rules : SpecialRules) : Processor :=
  mkProcessor (data p) (pattern p) rules (materialPattern p) (materialIndex p).

(** ** Nearest-preceding resolver *)

(** The backward loop of [_findMaterialBeforeLN] over the indices still to
    visit, last one first. Reading a field of a row that is not there throws. *)
Fixpoint scan_back (rows : list Row) (beforeLN : Z) (backwards : list nat)
  : Completion (option nat) :=
  match backwards with
  | [] => Normal None
  | idx :: rest =>
      match rows !! idx with
      | None => Thrown TypeError
      | Some row =>
          let rowLN := or_int (LN row) 0 in
          if rowLN <? beforeLN then Normal (Some idx)
          else scan_back rows beforeLN rest
      end
  end.

Definition _findMaterialBeforeLN (p : Processor) (material : string) (beforeLN : Z)
  : Completion (option nat) :=
  match materialIndex p !! material with
  | None => Normal None
  | Some indices => scan_back (data p) beforeLN (rev indices)
  end.

(** The resolver call as the engine performs it, with its trace entry. *)
Definition find_before (p : Processor) (material : string) (beforeLN : Z)
  : Eff (option nat) :=
  fun st =>
    match _findMaterialBeforeLN p material beforeLN with
    | Normal r =>
        (Normal r, mkState (visited st) (mkLookup material beforeLN r :: lookups st))
    | Thrown e => (Thrown e, st)
    end.

(** [this.data[idx]], followed by a field access. *)
Definition row_at (p : Processor) (idx : nat) : Eff Row :=
  match data p !! idx with
  | Some row => ret row
  | None => throw TypeError
  end.

(** ** Pattern matcher and special rules *)

Definition matchesPattern (p : Processor) (material : string) : bool :=
  if String.eqb material "" then false else materialPattern p material.

Definition _is43Pattern (material : string) : bool := startsWith (trim material) "43".

Definition _is45Pattern (material : string) : bool := startsWith (trim material) "45".

Definition _startsWith (material prefix : string) : bool :=
  startsWith (trim material) prefix.

Definition _checkSingleRule (lv : Z) (material : string) (rule : Rule)
  : Completion bool :=
  match rule_prefix rule with
  | None => Thrown TypeError
  | Some pfx =>
      let prefixes := map trim (split "|" pfx) in
      let matchesPrefix := existsb (fun prefix => _startsWith material prefix) prefixes in
      if negb matchesPrefix then Normal false
      else Normal (lv <=? rule_lv rule)
  end.

(** [rules.some(rule => _checkSingleRule(lv, material, rule))]. *)
Fixpoint some_rule (lv : Z) (material : string) (rules : list Rule)
  : Completion bool :=
  match rules with
  | [] => Normal false
  | rule :: rest =>
      match _checkSingleRule lv material rule with
      | Normal true => Normal true
      | Normal false => some_rule lv material rest
      | Thrown e => Thrown e
      end
  end.

Definition _matchesLVSpecialRule (p : Processor) (lv : Z) (material : string)
  : Completion bool :=
  match lvSpecialRules p with
  | NoRules => Normal false
  | RuleArray rules => some_rule lv material rules
  | OneRule rule => _checkSingleRule lv material rule
  end.

(** The usage a row contributes: [row['Unit Usg'] || 1.0], then the
    [isNaN] / [parseFloat] normalisation. *)
Definition unit_usage (row : Row) : float :=
  let unitUsg := or_num (Unit_Usg row) 1%float in
  if isNaN unitUsg then 1%float else parseFloat unitUsg.

(** ** Hierarchy traversal *)

Local Open Scope eff_scope.

(** The [try] block of [_traverseHierarchyUnified], with the three recursive
    calls of the source abstracted as [self]. *)
Definition traverse_body
  (self : string -> float -> Z -> Z -> Z -> Eff (string * float))
  (p : Processor) (startMaterial : string) (initialUsage : float)
  (depth maxDepth currentLN : Z) : Eff (string * float) :=
  try_catch
    (currentIdx <- find_before p startMaterial currentLN ;;
     match currentIdx with
     | None => ret (startMaterial, initialUsage)
     | Some currentIdx =>
       currentRow <- row_at p currentIdx ;;
       let currentRowLN := or_int (LN currentRow) 0 in
       let currentLV := or_int (LV currentRow) (-1) in
       seen <- visited_has startMaterial ;;
       if seen then ret (startMaterial, initialUsage)
       else
         visited_add startMaterial ;;;
         try_finally
           (let parentPartNumber := Part_Number currentRow in
            if (currentLV <=? 0) || String.eqb parentPartNumber ""
            then ret (startMaterial, initialUsage)
            else
              let parentMaterial := trim parentPartNumber in
              parentIdx <- find_before p parentMaterial currentRowLN ;;
              match parentIdx with
              | None => ret (startMaterial, initialUsage)
              | Some parentIdx =>
                parentRow <- row_at p parentIdx ;;
                let parentUnitUsg := unit_usage parentRow in
                let newUsage := (initialUsage * parentUnitUsg)%float in
                if matchesPattern p (Material parentRow) then
                  if _is43Pattern (Material parentRow) then
                    up <- self parentMaterial newUsage (depth + 1) maxDepth currentRowLN ;;
                    let '(upstreamMaterial, finalTtlUsage) := up in
                    if _is45Pattern upstreamMaterial
                    then ret (upstreamMaterial, finalTtlUsage)
                    else ret (Material parentRow, finalTtlUsage)
                  else
                    up <- self parentMaterial newUsage (depth + 1) maxDepth currentRowLN ;;
                    let '(_, finalTtlUsage) := up in
                    ret (Material parentRow, finalTtlUsage)
                else
                  let parentLV := or_int (LV parentRow) (-1) in
                  special <- lift (_matchesLVSpecialRule p parentLV (Material parentRow)) ;;
                  if special then ret (Material parentRow, newUsage)
                  else self parentMaterial newUsage (depth + 1) maxDepth currentRowLN
              end)
           (visited_delete startMaterial)
     end)
    (fun _ => ret (startMaterial, initialUsage)).

(** [_traverseHierarchyUnified] with its depth guard. The recursion of the
    source is bounded by that guard; [budget] is the structural argument that
    lets the definition be accepted. The entry point below supplies
    [maxDepth - depth + 1], which the guard never lets run out. *)
Fixpoint traverse (budget : nat) (p : Processor) (startMaterial : string)
  (initialUsage : float) (depth maxDepth currentLN : Z) : Eff (string * float) :=
  if depth >? maxDepth then ret (startMaterial, initialUsage)
  else
    match budget with
    | O => ret (startMaterial, initialUsage)
    | S budget' =>
        traverse_body (traverse budget' p) p startMaterial initialUsage
                      depth maxDepth currentLN
    end.

Definition _traverseHierarchyUnified (p : Processor) (startMaterial : string)
  (initialUsage : float) (depth maxDepth currentLN : Z) : Eff (string * float) :=
  traverse (Z.to_nat (maxDepth - depth + 1)) p startMaterial initialUsage
           depth maxDepth currentLN.

(** ** Row orchestrator *)

(** The body of the first loop of [process] for one row: the pair pushed on
    [sysCpnResults] and [ttlUsageResults]. *)
Definition resolve_row (p : Processor) (row : Row) : Eff (string * float) :=
  let currentMaterial := Material row in
  let currentLV := LV row in
  let currentLN := or_int (LN row) 0 in
  let unitUsg := unit_usage row in
  if currentLV <=? 1 then ret (currentMaterial, unitUsg)
  else if matchesPattern p currentMaterial then
    visited_clear ;;;
    r <- _traverseHierarchyUnified p currentMaterial unitUsg 0 20 currentLN ;;
    ret (currentMaterial, snd r)
  else
    special <- lift (_matchesLVSpecialRule p currentLV currentMaterial) ;;
    if special then
      visited_clear ;;;
      r <- _traverseHierarchyUnified p currentMaterial unitUsg 0 20 currentLN ;;
      ret (currentMaterial, snd r)
    else
      let currentPartNumber := Part_Number row in
      if String.eqb currentPartNumber "" then ret (currentMaterial, unitUsg)
      else
        visited_clear ;;;
        let parentMaterialStr := trim currentPartNumber in
        if matchesPattern p parentMaterialStr then
          visited_clear ;;;
          r <- _traverseHierarchyUnified p parentMaterialStr unitUsg 0 20 currentLN ;;
          ret (parentMaterialStr, snd r)
        else
          r <- _traverseHierarchyUnified p parentMaterialStr unitUsg 0 20 currentLN ;;
          let '(sysCpn, ttlUsage) := r in
          ret (if String.eqb sysCpn "" then currentMaterial else sysCpn, ttlUsage).

(** First loop of [process]: resolve every row, in order. *)
Fixpoint resolve_rows (p : Processor) (rows : list Row) : Eff (list (string * float)) :=
  match rows with
  | [] => ret []
  | row :: rest =>
      r <- resolve_row p row ;;
      rs <- resolve_rows p rest ;;
      ret (r :: rs)
  end.

(** Second loop of [process]: write the two derived columns. *)
Fixpoint commit (rows : list Row) (results : list (string * float)) : list Row :=
  match rows, results with
  | row :: rows', (sysCpn, ttlUsage) :: results' =>
      set_derived row sysCpn ttlUsage :: commit rows' results'
  | _, _ => rows
  end.

Definition with_data (p : Processor) (rows : list Row) : Processor :=
  mkProcessor rows (pattern p) (lvSpecialRules p) (materialPattern p) (materialIndex p).

(** [process()]: the processor after the call (its [data] carries the
    derived columns), or the exception that escaped the first loop. *)
Definition process (p : Processor) : Eff Processor :=
  results <- resolve_rows p (data p) ;;
  ret (with_data p (commit (data p) results)).

(** ** A [RegExp] instance for pipe-separated literal prefixes *)

Definition is_meta (c : ascii) : bool :=
  existsb (Ascii.eqb c)
    (list_ascii_of_string "\^$.*+?()[]{}").

Fixpoint has_meta (s : string) : bool :=
  match s with
  | EmptyString => false
  | String c s' => is_meta c || has_meta s'
  end.

(** Removes the last character, if any. *)
Fixpoint drop_last (s : string) : string :=
  match s with
  | EmptyString => EmptyString
  | String c EmptyString => EmptyString
  | String c s' => String c (drop_last s')
  end.

(** [^(p1|...|pn)] with literal [pi] tests whether the subject starts with
    one of the [pi]. Sources outside this fragment are rejected by this
    instance, as the host rejects for instance an unbalanced parenthesis. *)
Definition literal_RegExp_new (src : string) : option (string -> bool) :=
  match src with
  | String "^" (String "(" body) =>
      let alternatives := drop_last body in
      if has_meta alternatives then None
      else Some (fun subject =>
                   existsb (fun alt => startsWith subject alt) (split "|" alternatives))
  | _ => None
  end.

Definition literal_engine : RegExpEngine := {| RegExp_new := literal_RegExp_new |}.

(** ** Specification vocabulary *)

(** The fields of a row that resolution reads; the derived columns are not
    among them. *)
Definition core (r : Row) : Z * Z * string * string * option float :=
  (LV r, LN r, Material r, Part_Number r, Unit_Usg r).

(** The derived columns of a row. *)
Definition derived (r : Row) : option string * option float :=
  (SYS_CPN r, Ttl_Usage r).

(** The rules of a configuration, as a list. *)
Definition rules_of (rules : SpecialRules) : list Rule :=
  match rules with
  | NoRules => []
  | OneRule r => [r]
  | RuleArray rs => rs
  end.

(** A rule is satisfied by a (level, material) pair: one of the prefixes of
    its pipe-separated list, as listed or trimmed, starts the trimmed
    material, and the level is at most the rule's bound. *)
Definition rule_satisfied (lv : Z) (material : string) (rule : Rule) : Prop :=
  exists pfx alt,
    rule_prefix rule = Some pfx /\ In alt (split "|" pfx) /\
    (startsWith (trim material) alt = true \/
     startsWith (trim material) (trim alt) = true) /\
    lv <= rule_lv rule.

(** The positions of the rows whose trimmed material is [m], counted from
    [idx], in table order. *)
Fixpoint occurrences (m : string) (idx : nat) (rows : list Row) : list nat :=
  match rows with
  | [] => []
  | r :: rs =>
      if String.eqb (trim (Material r)) m then idx :: occurrences m (S idx) rs
      else occurrences m (S idx) rs
  end.

(** A recorded lookup answered strictly below its bound. *)
Definition lookup_below (p : Processor) (e : Lookup) : Prop :=
  forall i, lk_found e = Some i ->
    exists r, data p !! i = Some r /\ trim (Material r) = lk_material e /\
              LN r < lk_bound e.

(** The lookup that the row found by a lookup licenses: its parent
    reference, below its own sequence number. *)
Definition found_bound (p : Processor) (e : Lookup) : list (Z * string) :=
  match lk_found e with
  | Some i => match data p !! i with
              | Some r => [(or_int (LN r) 0, trim (Part_Number r))]
              | None => []
              end
  | None => []
  end.

(** A chronological trace is strictly upward from [bounds], a list of
    (bound, material) pairs: every lookup asks, below the sequence of the row
    being resolved or of a row found earlier in the trace, for a material
    that row licenses (its parent reference), and is answered strictly below
    that bound. *)
Fixpoint strictly_upward (p : Processor) (bounds : list (Z * string))
  (trace : list Lookup) : Prop :=
  match trace with
  | [] => True
  | e :: rest =>
      In (lk_bound e, lk_material e) bounds /\ lookup_below p e /\
      strictly_upward p (found_bound p e ++ bounds)%list rest
  end.

(** Two processors that resolution cannot tell apart: same index, rules and
    matcher, and tables that agree on the fields resolution reads. *)
Definition agree (p1 p2 : Processor) : Prop :=
  map core (data p1) = map core (data p2) /\
  materialIndex p1 = materialIndex p2 /\
  lvSpecialRules p1 = lvSpecialRules p2 /\
  (forall s, materialPattern p1 s = materialPattern p2 s).

(** The parent of the row at position [i], as the traversal resolves it:
    the nearest preceding occurrence of its part number. *)
Definition parent_row (p : Processor) (i : nat) : option nat :=
  match data p !! i with
  | Some r =>
      match _findMaterialBeforeLN p (trim (Part_Number r)) (or_int (LN r) 0) with
      | Normal (Some j) => Some j
      | _ => None
      end
  | None => None
  end.

(** [k] is further up the ancestor chain of [i]. *)
Inductive ancestor (p : Processor) : nat -> nat -> Prop :=
| ancestor_parent i j : parent_row p i = Some j -> ancestor p i j
| ancestor_step i j k : parent_row p i = Some j -> ancestor p j k -> ancestor p i k.

(** A computation performs only strictly upward lookups when started for
    material [m] under bound [ln]: whatever trace [rest] follows it, the
    lookups it adds extend that trace to one that is strictly upward from
    any bounds containing [(ln, m)]. *)
Definition upward_call (p : Processor)
  (f : EngineState -> Completion (string * float) * EngineState)
  (ln : Z) (m : string) : Prop :=
  forall st0 bounds rest,
    In (ln, m) bounds ->
    (forall bounds', incl bounds bounds' -> strictly_upward p bounds' rest) ->
    exists k, lookups (snd (f st0)) = (k ++ lookups st0)%list /\
              strictly_upward p bounds (rev k ++ rest).

(** [t] is the material code, as written or trimmed, of a row whose
    sequence number is below [ln]. *)
Definition names_row_below (p : Processor) (ln : Z) (t : string) : Prop :=
  exists j r, data p !! j = Some r /\ LN r < ln /\
              (t = Material r \/ t = trim (Material r)).

(** Row [j] is the nearest row above position [i] that carries the
    non-blank code [m]. *)
Definition nearest_above (p : Processor) (m : string) (i j : nat) : Prop :=
  (j < i)%nat /\ m <> "" /\
  (exists rj, data p !! j = Some rj /\ trim (Material rj) = m) /\
  forall j' rj', (j < j' < i)%nat -> data p !! j' = Some rj' ->
                 trim (Material rj') <> m.

(** A computation started for material [m] under bound [ln] completes
    normally, and the terminal it returns is [m] or names a row below [ln]. *)
Definition terminal_ok (p : Processor)
  (f : EngineState -> Completion (string * float) * EngineState)
  (m : string) (ln : Z) : Prop :=
  forall st, exists t u s', f st = (Normal (t, u), s') /\
                            (t = m \/ names_row_below p ln t).

(** [p2] is [p1] with further rows after its last one. *)
Definition extends_table (p1 p2 : Processor) : Prop :=
  (exists more, data p2 = (data p1 ++ more)%list) /\
  lvSpecialRules p1 = lvSpecialRules p2 /\
  (forall s, materialPattern p1 s = materialPattern p2 s).

(** What construction establishes and resolution relies on: sequence
    numbers are positions plus one, and the index lists, for every non-blank
    code, exactly the positions of that code in table order. *)
Definition well_formed (p : Processor) : Prop :=
  (forall i r, data p !! i = Some r -> LN r = Z.of_nat i + 1) /\
  (forall m, materialIndex p !! m =
             if String.eqb m "" then None
             else match occurrences m 0 (data p) with
                  | [] => None
                  | occ => Some occ
                  end).

(** ** The processor as an object: rows in a store *)

Module Store.

(** A table is an array of references to row objects. *)
Definition deref (h : gmap positive Row) (table : list positive) : list Row :=
  omap (fun l => h !! l) table.

(** Allocation of fresh row objects, one per row value. *)
Fixpoint alloc_rows (h : gmap positive Row) (rows : list Row)
  : gmap positive Row * list positive :=
  match rows with
  | [] => (h, [])
  | r :: rs =>
      let l := fresh (dom h) in
      let '(h', ls) := alloc_rows (<[l := r]> h) rs in
      (h', l :: ls)
  end.

(** [JSON.parse(JSON.stringify(data))]. *)
Definition deep_copy (h : gmap positive Row) (table : list positive)
  : gmap positive Row * list positive :=
  alloc_rows h (json_clone (deref h table)).

(** [_reindexLN], writing [LN] into the row objects of [this.data]. *)
Fixpoint reindex_in_place (h : gmap positive Row) (sequence : Z)
  (table : list positive) : gmap positive Row :=
  match table with
  | [] => h
  | l :: ls =>
      reindex_in_place (alter (fun r => set_LN r sequence) l h) (sequence + 1) ls
  end.

(** The second loop of [process], writing into the row objects. *)
Fixpoint commit_in_place (h : gmap positive Row) (table : list positive)
  (results : list (string * float)) : gmap positive Row :=
  match table, results with
  | l :: ls, (sysCpn, ttlUsage) :: rs =>
      commit_in_place (alter (fun r => set_derived r sysCpn ttlUsage) l h) ls rs
  | _, _ => h
  end.

(** A processor object: [this.data] and the fields fixed at construction. *)
Record Instance := mkInstance {
  this_data : list positive;
  this_fields : Processor
}.

(** The processor as the engine sees it in store [h]. *)
Definition view (h : gmap positive Row) (this : Instance) : Processor :=
  with_data (this_fields this) (deref h (this_data this)).

(** The store and the instance after the assignments of
    [new BOMHierarchyProcessor(data, pattern, lvSpecialRules)]. The closing
    [_printStats] touches no object; whether the expression completes is
    [BOMHierarchyProcessor_new]. *)
Definition new `{RegExpEngine} (h : gmap positive Row) (input : list positive)
  (pattern : string) (lvSpecialRules : SpecialRules)
  : gmap positive Row * Instance :=
  let '(h1, copy) := deep_copy h input in
  let h2 := reindex_in_place h1 1 copy in
  let rows := deref h2 copy in
  (h2, mkInstance copy
         (mkProcessor rows pattern lvSpecialRules (compile_pattern pattern)
                      (_buildMaterialIndex rows))).

(** [this.process()]: the returned array is [this.data] itself. *)
Definition process (h : gmap positive Row) (this : Instance) (st : EngineState)
  : Completion (list positive) * (gmap positive Row * EngineState) :=
  let p := view h this in
  match resolve_rows p (data p) st with
  | (Normal results, st') =>
      (Normal (this_data this), (commit_in_place h (this_data this) results, st'))
  | (Thrown e, st') => (Thrown e, (h, st'))
  end.

End Store.

(** ** Sample tables *)

Module Samples.

Definition row (lv : Z) (material partNumber : string) (usage : float) : Row :=
  mkRow lv 0 material partNumber (Some usage) None None.

(** The three-row scenario: ROOT, 45ABC below it, X1 below 45ABC. *)
Definition scenario : list Row :=
  [ row 1 "ROOT" "" 1; row 2 "45ABC" "ROOT" 2; row 3 "X1" "45ABC" 5 ]%float.

(** X (level 4) under a 43 part (level 3) under a 45 part (level 2). *)
Definition tie_break : list Row :=
  [ row 1 "ROOT" "" 1; row 2 "45B" "ROOT" 2; row 3 "43A" "45B" 3;
    row 4 "X" "43A" 5 ]%float.

(** A 43 part whose parent is a 64 part, itself under a 45 part. *)
Definition shadowed : list Row :=
  [ row 1 "ROOT" "" 1; row 2 "45B" "ROOT" 2; row 3 "64C" "45B" 7;
    row 4 "43A" "64C" 3; row 5 "Y" "43A" 5; row 6 "X" "Y" 11 ]%float.

(** A 43 part directly under a 45 part, seen from two levels below. *)
Definition superseded : list Row :=
  [ row 1 "ROOT" "" 1; row 2 "45B" "ROOT" 2; row 3 "43A" "45B" 3;
    row 4 "Y" "43A" 5; row 5 "X" "Y" 11 ]%float.

(** Parent references that point at each other. *)
Definition cyclic : list Row :=
  [ row 2 "A" "B" 2; row 2 "B" "A" 3; row 3 "C" "B" 5 ]%float.

(** The same material code at two positions. *)
Definition reused : list Row :=
  [ row 1 "ROOT" "" 1; row 2 "45A" "ROOT" 2; row 3 "P" "45A" 3;
    row 2 "Q" "ROOT" 4; row 3 "P" "Q" 5; row 4 "Z" "P" 6 ]%float.

(** A table for the special rule [{lv: 2, prefix: 'DCS|DC02'}]. *)
Definition with_rule : list Row :=
  [ row 1 "ROOT" "" 1; row 2 "DC02-7" "ROOT" 2; row 3 "M" "DC02-7" 3;
    row 4 "N" "M" 5 ]%float.

Definition dcs_rule : SpecialRules := OneRule (mkRule 2 (Some "DCS|DC02")).

(** A 45 part listed twice: under Q, and again directly under ROOT. *)
Definition duplicated : list Row :=
  [ row 1 "ROOT" "" 1; row 2 "Q" "ROOT" 3; row 3 "45A" "Q" 2;
    row 2 "45A" "ROOT" 5 ]%float.

(** A row whose parent reference names no row of the table. *)
Definition orphan : list Row :=
  [ row 1 "ROOT" "" 1; row 2 "A" "GONE" 3 ]%float.

(** The scenario as a caller holds it: three row objects and an array of
    references to them. *)
Definition scenario_store : gmap positive Row :=
  <[1%positive := row 1 "ROOT" "" 1]>
    (<[2%positive := row 2 "45ABC" "ROOT" 2]>
       (<[3%positive := row 3 "X1" "45ABC" 5]> ∅)).

Definition scenario_table : list positive := [1; 2; 3]%positive.

Definition shadowed_processor : Processor :=
  constructor (H := literal_engine) shadowed "45|43|64" NoRules.

(** The processor after [process()], or the processor itself when
    [process()] throws. *)
Definition processed (p : Processor) : Processor :=
  match process p initial_state with
  | (Normal p', _) => p'
  | (Thrown _, _) => p
  end.

Definition scenario_processor : Processor :=
  constructor (H := literal_engine) scenario "45" NoRules.

Definition reused_processor : Processor :=
  constructor (H := literal_engine) reused "45" NoRules.

Definition duplicated_processor : Processor :=
  constructor (H := literal_engine) duplicated "45" NoRules.

(** A processor whose rule was replaced, after construction, by a rule
    object without a prefix. *)
Definition misconfigured_processor : Processor :=
  set_lvSpecialRules (constructor (H := literal_engine) with_rule "45" NoRules)
                     (OneRule (mkRule 2 None)).

Definition resolved (p : Processor) : option (list (option string * option float)) :=
  match process p initial_state with
  | (Normal p', _) => Some (map derived (data p'))
  | (Thrown _, _) => None
  end.

End Samples.

(** * Properties *)

(** ** Sequence normaliser and material index *)

Lemma reindex_from_lookup rows : forall s i,
  reindex_from s rows !! i = (fun r => set_LN r (s + Z.of_nat i)) <$> rows !! i.
Proof.
  induction rows as [|r rows IH]; intros s i; [by destruct i|].
  destruct i as [|i]; simpl.
  - by rewrite Z.add_0_r.
  - rewrite IH. destruct (rows !! i); simpl; [|done].
    do 2 f_equal. lia.
Qed.

Lemma occurrences_elem m rows : forall k i,
  i ∈ occurrences m k rows <->
  (k <= i)%nat /\ exists r, rows !! (i - k)%nat = Some r /\ trim (Material r) = m.
Proof.
  induction rows as [|r rows IH]; intros k i; simpl.
  - split; [by intros ?%elem_of_nil|]. by intros (_ & r & ? & _).
  - assert (Hrest : i ∈ occurrences m (S k) rows <->
              (k < i)%nat /\ exists r', rows !! (i - S k)%nat = Some r' /\ trim (Material r') = m).
    { rewrite IH. split; intros [? ?]; split; auto; lia. }
    assert (Hshift : (k < i)%nat -> (r :: rows) !! (i - k)%nat = rows !! (i - S k)%nat).
    { intros Hlt. replace (i - k)%nat with (S (i - S k)) by lia. done. }
    destruct (String.eqb_spec (trim (Material r)) m) as [Heq|Hne].
    + rewrite elem_of_cons, Hrest. split.
      * intros [->|(Hlt & r' & Hr' & Hm)].
        -- split; [lia|]. exists r. by rewrite Nat.sub_diag.
        -- split; [lia|]. exists r'. by rewrite Hshift.
      * intros (Hle & r' & Hr' & Hm).
        destruct (decide (i = k)) as [->|Hik]; [by left|right].
        assert (k < i)%nat by lia. split; [done|]. exists r'. by rewrite <- Hshift.
    + rewrite Hrest. split.
      * intros (Hlt & r' & Hr' & Hm). split; [lia|]. exists r'. by rewrite Hshift.
      * intros (Hle & r' & Hr' & Hm).
        destruct (decide (i = k)) as [->|Hik].
        { rewrite Nat.sub_diag in Hr'. simpl in Hr'. congruence. }
        assert (k < i)%nat by lia. split; [done|]. exists r'. by rewrite <- Hshift.
Qed.

Lemma occurrences_sorted m rows : forall k,
  StronglySorted (fun a b => (a < b)%nat) (occurrences m k rows).
Proof.
  induction rows as [|r rows IH]; intros k; simpl; [constructor|].
  destruct (String.eqb (trim (Material r)) m); [|apply IH].
  constructor; [apply IH|].
  apply Forall_forall. intros j Hj%occurrences_elem. lia.
Qed.

Lemma index_row_lookup k r acc m : m <> "" ->
  index_row k r acc !! m =
    if String.eqb (trim (Material r)) m
    then Some (default [] (acc !! m) ++ [k])%list
    else acc !! m.
Proof.
  intros Hm. unfold index_row.
  destruct (String.eqb_spec (trim (Material r)) "") as [He|He].
  - destruct (String.eqb_spec (trim (Material r)) m); [congruence|done].
  - destruct (String.eqb_spec (trim (Material r)) m) as [->|Hne].
    + destruct (acc !! m); by rewrite lookup_insert_eq.
    + destruct (acc !! trim (Material r)); by rewrite lookup_insert_ne.
Qed.

Lemma index_row_blank k r acc : index_row k r acc !! "" = acc !! "".
Proof.
  unfold index_row.
  destruct (String.eqb_spec (trim (Material r)) "") as [He|He]; [done|].
  destruct (acc !! trim (Material r)); by rewrite lookup_insert_ne.
Qed.

Lemma build_index_from_lookup rows : forall k acc m, m <> "" ->
  build_index_from k rows acc !! m =
    match occurrences m k rows with
    | [] => acc !! m
    | occ => Some (default [] (acc !! m) ++ occ)%list
    end.
Proof.
  induction rows as [|r rows IH]; intros k acc m Hm; simpl; [done|].
  rewrite IH by done. rewrite index_row_lookup by done.
  destruct (String.eqb (trim (Material r)) m); simpl.
  - destruct (occurrences m (S k) rows); simpl; [done|].
    by rewrite <- app_assoc.
  - done.
Qed.

Lemma build_index_from_blank rows : forall k acc,
  build_index_from k rows acc !! "" = acc !! "".
Proof.
  induction rows as [|r rows IH]; intros k acc; simpl; [done|].
  by rewrite IH, index_row_blank.
Qed.

Lemma constructor_well_formed `{RegExpEngine} input pattern rules :
  well_formed (constructor input pattern rules).
Proof.
  split; simpl.
  - intros i r. unfold _reindexLN. rewrite reindex_from_lookup.
    destruct (json_clone input !! i); simpl; [|done].
    intros [= <-]. simpl. lia.
  - intros m. unfold _buildMaterialIndex.
    destruct (String.eqb_spec m "") as [->|Hm].
    + by rewrite build_index_from_blank.
    + rewrite build_index_from_lookup by done.
      by destruct (occurrences m 0 _).
Qed.

(** ** Nearest-preceding resolver *)

Lemma scan_back_rev_spec rows b occ :
  (forall j, j ∈ occ -> is_Some (rows !! j)) ->
  StronglySorted (fun a c => (a < c)%nat) occ ->
  exists res, scan_back rows b (rev occ) = Normal res /\
    match res with
    | Some i =>
        i ∈ occ /\ (exists r, rows !! i = Some r /\ or_int (LN r) 0 < b) /\
        forall j r, j ∈ occ -> rows !! j = Some r -> or_int (LN r) 0 < b -> (j <= i)%nat
    | None =>
        forall j r, j ∈ occ -> rows !! j = Some r -> ~ or_int (LN r) 0 < b
    end.
Proof.
  induction occ as [|x occ IH] using rev_ind; intros Hpresent Hsorted.
  - exists None. split; [done|]. by intros j r ?%elem_of_nil.
  - rewrite rev_unit. simpl.
    destruct (Hpresent x) as [rx Hrx]; [set_solver|]. rewrite Hrx.
    destruct (Z.ltb_spec (or_int (LN rx) 0) b) as [Hlt|Hge].
    + exists (Some x). split; [done|]. split; [set_solver|]. split; [eauto|].
      intros j r [Hj|Hj%list_elem_of_singleton]%elem_of_app _ _; [|lia].
      pose proof (StronglySorted_app_1_elem_of _ _ _ j x Hsorted Hj) as Hjx.
      assert (j < x)%nat by (apply Hjx; set_solver). lia.
    + destruct IH as (res & Hres & Hspec).
      { intros j Hj. apply Hpresent. set_solver. }
      { by eapply StronglySorted_app_1_l. }
      exists res. split; [done|]. destruct res as [i|].
      * destruct Hspec as (Hi & Hok & Hmax).
        split; [apply elem_of_app; by left|]. split; [done|].
        intros j r [Hj|Hj%list_elem_of_singleton]%elem_of_app Hr Hb; [eauto|].
        subst j. rewrite Hrx in Hr. injection Hr as <-. lia.
      * intros j r [Hj|Hj%list_elem_of_singleton]%elem_of_app Hr; [eauto|].
        subst j. rewrite Hrx in Hr. injection Hr as <-. lia.
Qed.

(** The resolver on a well-formed processor: it completes normally, and its
    answer is the nearest preceding occurrence. *)
Lemma find_spec p m b :
  well_formed p ->
  exists res, _findMaterialBeforeLN p m b = Normal res /\
    match res with
    | Some i =>
        exists r, data p !! i = Some r /\ trim (Material r) = m /\ m <> "" /\
                  LN r < b /\
                  forall j r', data p !! j = Some r' -> trim (Material r') = m ->
                               LN r' < b -> (j <= i)%nat
    | None =>
        forall j r', data p !! j = Some r' -> trim (Material r') = m -> m <> "" ->
                     ~ LN r' < b
    end.
Proof.
  intros [Hln Hidx]. unfold _findMaterialBeforeLN. rewrite Hidx.
  assert (Hor : forall i r, data p !! i = Some r -> or_int (LN r) 0 = LN r).
  { intros i r Hr. unfold or_int. rewrite (Hln i r Hr).
    destruct (Z.eqb_spec (Z.of_nat i + 1) 0); [lia|done]. }
  destruct (String.eqb_spec m "") as [->|Hm].
  { exists None. split; [done|]. by intros j r' _ _ ?. }
  assert (Hocc : forall j, j ∈ occurrences m 0 (data p) <->
            exists r, data p !! j = Some r /\ trim (Material r) = m).
  { intros j. rewrite occurrences_elem, Nat.sub_0_r. split.
    - by intros [_ ?].
    - intros ?. split; [lia|done]. }
  destruct (scan_back_rev_spec (data p) b (occurrences m 0 (data p)))
    as (res & Hres & Hspec).
  { intros j (r & Hr & _)%Hocc. eauto. }
  { apply occurrences_sorted. }
  destruct (occurrences m 0 (data p)) as [|i0 occ] eqn:Eocc.
  - exists None. split; [done|]. intros j r' Hr' Hm' _ _.
    assert (j ∈ @nil nat) as ?%elem_of_nil by (apply Hocc; eauto). done.
  - exists res. split; [done|]. destruct res as [i|].
    + destruct Hspec as ((r & Hr & Hmat)%Hocc & (r2 & Hr2 & Hlt) & Hmax).
      rewrite Hr in Hr2. injection Hr2 as <-.
      exists r. repeat split; try done.
      * by rewrite <- (Hor i r Hr).
      * intros j r' Hr' Hm' Hb. apply (Hmax j r'); [apply Hocc; eauto|done|].
        by rewrite (Hor j r' Hr').
    + intros j r' Hr' Hm' _ Hb. apply (Hspec j r'); [apply Hocc; eauto|done|].
      by rewrite (Hor j r' Hr').
Qed.

(** ** Traversal: completion, visited set, recursion budget *)

Ltac unfold_eff :=
  unfold traverse_body, try_catch, try_finally, bind, find_before, row_at,
    visited_has, visited_add, visited_clear, visited_delete, lift, ret, throw in *.

(** One step of symbolic execution: reduce, or split on the scrutinee that
    is evaluated next. *)
Ltac eff_step :=
  first
    [ progress cbv beta iota zeta
    | match goal with
      | |- context [match ?x with _ => _ end] =>
          lazymatch x with
          | context [match _ with _ => _ end] => fail
          | _ => destruct x eqn:?
          end
      end ].

(** Uses a hypothesis about every call of [self] at the calls that occur. *)
Ltac use_self Hself :=
  repeat match goal with
  | E : ?self ?m ?u ?d ?md ?ln ?st = (_, _) |- _ =>
      let Hs := fresh "Hs" in
      pose proof (Hself m u d md ln st) as Hs;
      rewrite E in Hs; simpl in Hs; revert E
  end; intros.

Lemma visited_restore (m : string) (s : gset string) :
  bool_decide (m ∈ s) = false -> ({[m]} ∪ s) ∖ {[m]} = s.
Proof. intros Hm%bool_decide_eq_false. set_solver. Qed.

Lemma traverse_body_normal self p startMaterial initialUsage depth maxDepth currentLN st :
  exists r st',
    traverse_body self p startMaterial initialUsage depth maxDepth currentLN st
    = (Normal r, st').
Proof.
  unfold traverse_body, try_catch, ret.
  match goal with |- context [match ?b with _ => _ end] => destruct b as [[r|e] st'] end;
    eauto.
Qed.

Lemma traverse_normal budget p : forall startMaterial initialUsage depth maxDepth currentLN st,
  exists r st',
    traverse budget p startMaterial initialUsage depth maxDepth currentLN st
    = (Normal r, st').
Proof.
  destruct budget as [|budget]; intros; simpl.
  - destruct (depth >? maxDepth); unfold ret; eauto.
  - destruct (depth >? maxDepth); [unfold ret; eauto|].
    apply traverse_body_normal.
Qed.

Lemma traverse_body_visited self p startMaterial initialUsage depth maxDepth currentLN st :
  (forall m u d md ln st0, visited (snd (self m u d md ln st0)) = visited st0) ->
  visited (snd (traverse_body self p startMaterial initialUsage depth maxDepth currentLN st))
  = visited st.
Proof.
  intros Hself. unfold_eff.
  repeat eff_step; use_self Hself; simpl in *; try done;
    first [ by apply visited_restore
          | match goal with Hs : visited _ = _ |- _ => rewrite Hs end;
            by apply visited_restore ].
Qed.

Lemma traverse_visited budget p : forall startMaterial initialUsage depth maxDepth currentLN st,
  visited (snd (traverse budget p startMaterial initialUsage depth maxDepth currentLN st))
  = visited st.
Proof.
  induction budget as [|budget IH]; intros; simpl.
  - by destruct (depth >? maxDepth).
  - destruct (depth >? maxDepth); [done|].
    by apply traverse_body_visited.
Qed.

(** The body calls [self] only one level deeper, under the same cap. *)
Lemma traverse_body_ext self1 self2 p startMaterial initialUsage depth maxDepth currentLN st :
  (forall m u ln st0,
     self1 m u (depth + 1) maxDepth ln st0 = self2 m u (depth + 1) maxDepth ln st0) ->
  traverse_body self1 p startMaterial initialUsage depth maxDepth currentLN st
  = traverse_body self2 p startMaterial initialUsage depth maxDepth currentLN st.
Proof.
  intros Hself. unfold_eff.
  repeat first [rewrite Hself | eff_step]; done.
Qed.

Lemma traverse_budget_irrelevant p : forall budget1 budget2
    startMaterial initialUsage depth maxDepth currentLN st,
  (Z.to_nat (maxDepth - depth + 1) <= budget1)%nat ->
  (Z.to_nat (maxDepth - depth + 1) <= budget2)%nat ->
  traverse budget1 p startMaterial initialUsage depth maxDepth currentLN st
  = traverse budget2 p startMaterial initialUsage depth maxDepth currentLN st.
Proof.
  induction budget1 as [|budget1 IH]; intros budget2 m u depth maxDepth ln st H1 H2.
  - destruct budget2; simpl; destruct (Z.gtb_spec depth maxDepth); try done; lia.
  - destruct budget2; simpl; destruct (Z.gtb_spec depth maxDepth); try done; try lia.
    apply traverse_body_ext. intros. apply IH; lia.
Qed.

(** Number of resolver calls of one traversal: two per level at most. *)
Lemma traverse_body_lookups self p startMaterial initialUsage depth maxDepth currentLN st n :
  (forall m u d md ln st0, exists k,
      lookups (snd (self m u d md ln st0)) = (k ++ lookups st0)%list /\
      (length k <= n)%nat) ->
  exists k,
    lookups (snd (traverse_body self p startMaterial initialUsage depth maxDepth currentLN st))
    = (k ++ lookups st)%list /\ (length k <= 2 + n)%nat.
Proof.
  intros Hself. unfold_eff.
  repeat eff_step; use_self Hself; simpl in *;
    repeat match goal with
    | H : exists k, _ /\ _ |- _ => destruct H as (k & -> & ?)
    end;
    first
      [ by (exists []; split; [done|simpl; lia])
      | by (eexists [_]; split; [done|simpl; lia])
      | by (eexists [_; _]; split; [done|simpl; lia])
      | by (eexists (_ ++ [_; _])%list; split;
            [by rewrite <- app_assoc|rewrite length_app; simpl; lia]) ].
Qed.

Lemma traverse_lookups budget p : forall startMaterial initialUsage depth maxDepth currentLN st,
  exists k,
    lookups (snd (traverse budget p startMaterial initialUsage depth maxDepth currentLN st))
    = (k ++ lookups st)%list /\ (length k <= 2 * budget)%nat.
Proof.
  induction budget as [|budget IH]; intros; simpl.
  - exists []. by destruct (depth >? maxDepth).
  - destruct (depth >? maxDepth); [exists []; split; [done|simpl; lia]|].
    destruct (traverse_body_lookups (traverse budget p) p startMaterial initialUsage
                depth maxDepth currentLN st (2 * budget)) as (k & Hk & Hlen).
    { intros. apply IH. }
    exists k. split; [done|lia].
Qed.

(** ** Strictly upward lookups *)

Lemma find_below p m b res :
  well_formed p ->
  _findMaterialBeforeLN p m b = Normal res ->
  lookup_below p (mkLookup m b res).
Proof.
  intros Hwf Hfind i Hi. simpl in *. subst res.
  destruct (find_spec p m b Hwf) as (res & Hres & Hspec).
  rewrite Hfind in Hres. injection Hres as <-.
  destruct Hspec as (r & Hr & Hm & _ & Hlt & _). eauto.
Qed.

Ltac in_bounds :=
  unfold found_bound; simpl;
  repeat match goal with
  | H : data _ !! _ = Some _ |- _ => rewrite H
  end; simpl;
  first [ assumption | by left | by (right; left)
        | by (apply in_or_app; right; left)
        | by (apply in_or_app; right; apply in_or_app; left; left) ].

Ltac weaken_rest Hrest :=
  let b := fresh "b" in let Hb := fresh "Hb" in
  first [ apply Hrest; intros b Hb; repeat (apply in_or_app; right); exact Hb
        | let bs := fresh "bs" in let Hi := fresh "Hi" in
          intros bs Hi; apply Hrest; intros b Hb; apply Hi;
          repeat (apply in_or_app; right); exact Hb ].

Lemma traverse_body_upward self p startMaterial initialUsage depth maxDepth currentLN :
  well_formed p ->
  (forall m u d md ln, upward_call p (self m u d md ln) ln m) ->
  upward_call p (traverse_body self p startMaterial initialUsage depth maxDepth currentLN)
              currentLN startMaterial.
Proof.
  intros Hwf Hself st bounds rest Hin Hrest. unfold_eff.
  repeat eff_step; simpl.
  all: repeat match goal with
       | H : _findMaterialBeforeLN _ _ _ = Normal _ |- _ =>
           apply (find_below _ _ _ _ Hwf) in H
       end.
  all: try match goal with
       | E : ?f ?m ?u ?d ?md ?ln ?st0 = (_, _),
         H1 : lookup_below _ ?e1, H2 : lookup_below _ ?e2 |- _ =>
           lazymatch e2 with
           | {| lk_bound := ln |} =>
               let k := fresh "k" in let Hk := fresh "Hk" in let Hup := fresh "Hup" in
               destruct (Hself m u d md ln st0
                           (found_bound p e2 ++ found_bound p e1 ++ bounds)%list rest)
                 as (k & Hk & Hup);
               [ in_bounds | weaken_rest Hrest | ];
               rewrite E in Hk; simpl in Hk; rewrite Hk;
               exists (k ++ [e2; e1])%list; split; [by rewrite <- app_assoc|];
               rewrite rev_app_distr; simpl;
               repeat split; try assumption; in_bounds
           end
       end.
  all: first
      [ by (exists []; split; [done|]; simpl; weaken_rest Hrest)
      | by (eexists [_]; split; [done|]; simpl; repeat split;
            try assumption; try in_bounds; weaken_rest Hrest)
      | by (eexists [_; _]; split; [done|]; simpl; repeat split;
            try assumption; try in_bounds; weaken_rest Hrest)
      | idtac ].
Qed.

Lemma traverse_upward budget p :
  well_formed p ->
  forall m u d md ln, upward_call p (traverse budget p m u d md ln) ln m.
Proof.
  intros Hwf. induction budget as [|budget IH]; intros m u d md ln; simpl.
  - intros st bounds rest Hin Hrest. exists [].
    destruct (d >? md); simpl; (split; [done|]); apply Hrest, incl_refl.
  - destruct (d >? md).
    + intros st bounds rest Hin Hrest. exists []. split; [done|].
      apply Hrest, incl_refl.
    + by apply traverse_body_upward.
Qed.

Lemma well_formed_or_int p i r :
  well_formed p -> data p !! i = Some r -> or_int (LN r) 0 = LN r.
Proof.
  intros [Hln _] Hr. unfold or_int. rewrite (Hln i r Hr).
  destruct (Z.eqb_spec (Z.of_nat i + 1) 0); [lia|done].
Qed.

(** In a strictly upward trace every answer lies below every initial bound's
    maximum. *)
Lemma strictly_upward_found p top :
  well_formed p ->
  forall trace bounds,
    (forall b, In b bounds -> fst b <= top) ->
    strictly_upward p bounds trace ->
    forall e j, In e trace -> lk_found e = Some j ->
                lk_bound e <= top /\ Z.of_nat j + 1 < lk_bound e.
Proof.
  intros Hwf. induction trace as [|e0 trace IH]; intros bounds Hb Hup e j; simpl.
  - done.
  - destruct Hup as (Hin & Hbelow & Hrest). intros [<-|He] Hj.
    + destruct (Hbelow j Hj) as (r & Hr & _ & Hlt).
      destruct Hwf as [Hln _]. rewrite (Hln j r Hr) in Hlt.
      specialize (Hb _ Hin). auto.
    + apply (IH (found_bound p e0 ++ bounds)%list); try done.
      intros b [Hbf|Hbb]%in_app_or; [|auto].
      unfold found_bound in Hbf. destruct (lk_found e0) as [i|] eqn:Ei; [|done].
      destruct (Hbelow i Ei) as (r & Hr & _ & Hlt). rewrite Hr in Hbf.
      destruct Hbf as [<-|[]]. simpl. rewrite (well_formed_or_int p i r Hwf Hr).
      specialize (Hb _ Hin). simpl in Hb. lia.
Qed.

Lemma resolve_row_upward p i row st :
  well_formed p -> data p !! i = Some row ->
  exists k,
    lookups (snd (resolve_row p row st)) = (k ++ lookups st)%list /\
    strictly_upward p [(LN row, Material row); (LN row, trim (Part_Number row))] (rev k).
Proof.
  intros Hwf Hrow. unfold resolve_row, _traverseHierarchyUnified.
  rewrite (well_formed_or_int p i row Hwf Hrow). unfold_eff.
  repeat eff_step; simpl;
    try (by (exists []));
    match goal with
    | E : traverse ?n p ?m ?u ?d ?md ?ln ?st0 = (_, _) |- _ =>
        destruct (traverse_upward n p Hwf m u d md ln st0
                    [(LN row, Material row); (LN row, trim (Part_Number row))] [])
          as (k & Hk & Hup); [first [by left|by right; left]|done|];
        rewrite E in Hk; simpl in Hk; rewrite app_nil_r in Hup; eauto
    end.
Qed.

(** C3: every lookup made while resolving a row asks for the parent
    reference of a row and is bounded by that row's sequence (at the first
    hop: the resolved row's own sequence, for its parent reference or its own
    material), and it is answered strictly below its bound; so every row that
    a resolution goes through lies strictly before the resolved row, also
    when the same material code occurs at several positions. *)
Theorem C3_strictly_upward_lookups `{RegExpEngine} (input : list Row)
  (pattern : string) (rules : SpecialRules) (i : nat) (row : Row) (st : EngineState) :
  let p := constructor input pattern rules in
  data p !! i = Some row ->
  exists k,
    lookups (snd (resolve_row p row st)) = (k ++ lookups st)%list /\
    strictly_upward p [(LN row, Material row); (LN row, trim (Part_Number row))]
                    (rev k) /\
    forall e j, In e k -> lk_found e = Some j ->
      (j < i)%nat /\ lk_bound e <= LN row /\
      exists r, data p !! j = Some r /\ trim (Material r) = lk_material e /\
                LN r < lk_bound e.
Proof.
  intros p Hrow.
  assert (Hwf : well_formed p) by apply constructor_well_formed.
  destruct (resolve_row_upward p i row st Hwf Hrow) as (k & Hk & Hup).
  exists k. split; [done|]. split; [done|].
  intros e j He Hj.
  assert (Hln : LN row = Z.of_nat i + 1) by (by apply (proj1 Hwf)).
  destruct (strictly_upward_found p (LN row) Hwf (rev k)
              [(LN row, Material row); (LN row, trim (Part_Number row))])
    with (e := e) (j := j) as [Hle Hlt]; try done.
  { intros b [<-|[<-|[]]]; simpl; lia. }
  { by apply in_rev in He. }
  split; [lia|]. split; [done|].
  assert (Hbelow : lookup_below p e).
  { clear Hk. apply in_rev in He. revert He Hup.
    generalize [(LN row, Material row); (LN row, trim (Part_Number row))].
    induction (rev k) as [|e0 t IH]; intros bs; simpl; [done|].
    intros [<-|He] (_ & Hb & Hrest); [done|]. by eapply IH. }
  exact (Hbelow j Hj).
Qed.

Lemma C3_strictly_upward_lookups_witness :
  exists k,
    lookups (snd (resolve_row
                    (constructor (H := literal_engine) Samples.reused "45" NoRules)
                    (mkRow 4 6 "Z" "P" (Some 6%float) None None) initial_state))
    = (k ++ [])%list /\
    strictly_upward (constructor (H := literal_engine) Samples.reused "45" NoRules)
                    [(6, "Z"); (6, "P")] (rev k) /\
    forall e j, In e k -> lk_found e = Some j ->
      (j < 5)%nat /\ lk_bound e <= 6 /\
      exists r, data (constructor (H := literal_engine) Samples.reused "45" NoRules) !! j
                = Some r /\ trim (Material r) = lk_material e /\ LN r < lk_bound e.
Proof.
  apply (C3_strictly_upward_lookups (H := literal_engine) Samples.reused "45" NoRules
           5%nat (mkRow 4 6 "Z" "P" (Some 6%float) None None) initial_state).
  reflexivity.
Defined.

(** C4: on a constructed processor the sequence numbers are 1..N in table
    order, and the lookup of [m] below [b] returns the position of the row
    with trimmed material [m] whose sequence is the greatest one strictly
    less than [b]; it reports not-found exactly when no row with non-blank
    trimmed material [m] has a sequence strictly less than [b]. *)
Theorem C4_nearest_preceding_resolver `{RegExpEngine} (input : list Row)
  (pattern : string) (rules : SpecialRules) (m : string) (b : Z) :
  let p := constructor input pattern rules in
  (forall i r, data p !! i = Some r -> LN r = Z.of_nat i + 1) /\
  (exists res, _findMaterialBeforeLN p m b = Normal res /\
     match res with
     | Some i =>
         exists r, data p !! i = Some r /\ trim (Material r) = m /\
                   trim (Material r) <> "" /\ LN r < b /\
                   forall j r', data p !! j = Some r' -> trim (Material r') = m ->
                                LN r' < b -> LN r' <= LN r
     | None => True
     end) /\
  (_findMaterialBeforeLN p m b = Normal None <->
   forall j r', data p !! j = Some r' -> trim (Material r') <> "" ->
                trim (Material r') = m -> ~ LN r' < b).
Proof.
  intros p.
  assert (Hwf : well_formed p) by apply constructor_well_formed.
  destruct (find_spec p m b Hwf) as (res & Hres & Hspec).
  split; [apply Hwf|]. split.
  - exists res. split; [done|]. destruct res as [i|]; [|done].
    destruct Hspec as (r & Hr & Hm & Hne & Hlt & Hmax).
    exists r. repeat split; try done; [congruence|].
    intros j r' Hr' Hm' Hb. specialize (Hmax j r' Hr' Hm' Hb).
    rewrite (proj1 Hwf j r' Hr'), (proj1 Hwf i r Hr). lia.
  - rewrite Hres. split.
    + intros [= ->] j r' Hr' Hne Hm'. apply (Hspec j r' Hr' Hm'). congruence.
    + intros Hnone. destruct res as [i|]; [exfalso|done].
      destruct Hspec as (r & Hr & Hm & Hne & Hlt & _).
      apply (Hnone i r Hr); [congruence|done|done].
Qed.

(** ** Termination and the depth cap *)

(** C6: the traversal is total and completes normally with a (material,
    usage) pair; the recursion budget of the model is never what stops it;
    it makes at most two lookups per level under the cap; beyond the cap it
    returns its arguments unchanged; and a table whose parent references
    point at each other is resolved. *)
Theorem C6_traversal_terminates (p : Processor) (startMaterial : string)
  (initialUsage : float) (depth maxDepth currentLN : Z) (st : EngineState) :
  (exists material usage st',
     _traverseHierarchyUnified p startMaterial initialUsage depth maxDepth currentLN st
     = (Normal (material, usage), st')) /\
  (forall budget, (Z.to_nat (maxDepth - depth + 1) <= budget)%nat ->
     traverse budget p startMaterial initialUsage depth maxDepth currentLN st
     = _traverseHierarchyUnified p startMaterial initialUsage depth maxDepth currentLN st) /\
  (exists k,
     lookups (snd (_traverseHierarchyUnified p startMaterial initialUsage
                     depth maxDepth currentLN st)) = (k ++ lookups st)%list /\
     (length k <= 2 * Z.to_nat (maxDepth - depth + 1))%nat) /\
  (maxDepth < depth ->
     _traverseHierarchyUnified p startMaterial initialUsage depth maxDepth currentLN st
     = (Normal (startMaterial, initialUsage), st)) /\
  Samples.resolved (constructor (H := literal_engine) Samples.cyclic "45" NoRules)
  = Some [ (Some "B", Some 2); (Some "A", Some 3); (Some "A", Some 10) ]%float.
Proof.
  unfold _traverseHierarchyUnified. split; [|split; [|split; [|split]]].
  - destruct (traverse_normal (Z.to_nat (maxDepth - depth + 1)) p startMaterial
                initialUsage depth maxDepth currentLN st) as ([m u] & st' & Hr).
    eauto.
  - intros budget Hb. by apply traverse_budget_irrelevant.
  - apply traverse_lookups.
  - intros Hd. replace (Z.to_nat (maxDepth - depth + 1)) with 0%nat by lia.
    simpl. destruct (Z.gtb_spec depth maxDepth); [done|lia].
  - vm_compute. reflexivity.
Qed.

(** ** Visited set *)

(** C10: every call of the traversal leaves the visited set as it found it,
    whatever happens inside, exceptions included; after the [clear] that
    precedes each top-level call the set is therefore empty again when the
    call returns. *)
Theorem C10_visited_restored (p : Processor) (startMaterial : string)
  (initialUsage : float) (depth maxDepth currentLN : Z) (st : EngineState) :
  visited (snd (_traverseHierarchyUnified p startMaterial initialUsage
                  depth maxDepth currentLN st)) = visited st /\
  visited (snd (bind visited_clear
                  (fun _ => _traverseHierarchyUnified p startMaterial initialUsage
                              depth maxDepth currentLN) st)) = ∅.
Proof.
  unfold _traverseHierarchyUnified. split.
  - apply traverse_visited.
  - unfold bind, visited_clear. by rewrite traverse_visited.
Qed.

(** The fallback path is real: a rule without a prefix (assigned after
    construction) makes the rule check throw inside the inner [try]; the call
    still returns its arguments and the visited set is empty again. *)
Example traverse_catches_rule_error :
  _traverseHierarchyUnified Samples.misconfigured_processor
    "M" 5%float 0 20 4 initial_state
  = (Normal ("M", 5%float),
     mkState ∅ [ mkLookup "DC02-7" 3 (Some 1%nat); mkLookup "M" 4 (Some 2%nat) ]).
Proof. vm_compute. reflexivity. Qed.

(** ** Invalid pattern *)

Lemma display_each_completes rules :
  display_each rules = Normal tt <-> Forall (fun r => is_Some (rule_prefix r)) rules.
Proof.
  induction rules as [|r rules IH]; simpl; [by split|].
  unfold rule_display. destruct (rule_prefix r) as [pfx|] eqn:Hp.
  - rewrite IH. split.
    + intros Hrest. apply Forall_cons. split; [by rewrite Hp|done].
    + by intros [_ Hrest]%Forall_cons.
  - split; [done|]. intros [[? Hr] _]%Forall_cons. by rewrite Hp in Hr.
Qed.

Lemma printStats_completes p :
  _printStats p = Normal tt
  <-> Forall (fun r => is_Some (rule_prefix r)) (rules_of (lvSpecialRules p)).
Proof.
  unfold _printStats. destruct (lvSpecialRules p) as [|r|rs]; simpl.
  - by split.
  - unfold rule_display. destruct (rule_prefix r) as [pfx|] eqn:Hp.
    + split; [|done]. intros _. apply Forall_cons. split; [by rewrite Hp|done].
    + split; [done|]. intros [[? Hr] _]%Forall_cons. by rewrite Hp in Hr.
  - apply display_each_completes.
Qed.

Lemma new_completes `{RegExpEngine} input pattern rules :
  Forall (fun r => is_Some (rule_prefix r)) (rules_of rules) ->
  BOMHierarchyProcessor_new input pattern rules
  = Normal (constructor input pattern rules).
Proof.
  intros Hwell. unfold BOMHierarchyProcessor_new.
  by rewrite (proj2 (printStats_completes (constructor input pattern rules)) Hwell).
Qed.

Lemma new_returns_constructed `{RegExpEngine} input pattern rules p :
  BOMHierarchyProcessor_new input pattern rules = Normal p ->
  p = constructor input pattern rules /\
  Forall (fun r => is_Some (rule_prefix r)) (rules_of rules).
Proof.
  unfold BOMHierarchyProcessor_new.
  destruct (_printStats (constructor input pattern rules)) as [[]|e] eqn:Hstats; [|done].
  intros [= <-]. split; [done|].
  by apply (printStats_completes (constructor input pattern rules)).
Qed.

(** C8: an invalid pattern does not abort construction. For a configuration
    whose rules each carry a prefix string, when the pattern does not
    compile the [new] expression still completes, the processor it returns
    has the fallback matcher, and [matchesPattern] is false on every
    material, the empty string included. *)
Theorem C8_invalid_pattern_matches_nothing `{RegExpEngine} (input : list Row)
  (pattern : string) (rules : SpecialRules) :
  RegExp_new (String.append "^(" (String.append pattern ")")) = None ->
  Forall (fun r => is_Some (rule_prefix r)) (rules_of rules) ->
  exists p, BOMHierarchyProcessor_new input pattern rules = Normal p /\
            materialPattern p = empty_only /\
            forall material, matchesPattern p material = false.
Proof.
  intros Hfail Hwell. exists (constructor input pattern rules).
  split; [by apply new_completes|].
  assert (Hpat : materialPattern (constructor input pattern rules) = empty_only).
  { simpl. unfold compile_pattern. by rewrite Hfail. }
  split; [done|].
  intros material. unfold matchesPattern. rewrite Hpat.
  unfold empty_only. by destruct (String.eqb material "").
Qed.

Lemma C8_invalid_pattern_matches_nothing_witness :
  exists p, BOMHierarchyProcessor_new (H := literal_engine) Samples.with_rule "("
              Samples.dcs_rule = Normal p /\
            materialPattern p = empty_only /\
            forall material, matchesPattern p material = false.
Proof.
  apply (C8_invalid_pattern_matches_nothing (H := literal_engine)
           Samples.with_rule "(" Samples.dcs_rule).
  - reflexivity.
  - repeat constructor. simpl. eauto.
Defined.

(** ** Priority cascade on the parent *)

Lemma or_int_level_le (lv : Z) : or_int lv (-1) <= lv.
Proof. unfold or_int. destruct (Z.eqb_spec lv 0); lia. Qed.

Lemma prefix_trimEnd a : forall s,
  String.prefix a s = true -> String.prefix (trimEnd a) s = true.
Proof.
  induction a as [|c a IH]; intros [|d s]; simpl; try done.
  destruct (ascii_dec c d) as [->|]; [|done]. intros Hp.
  specialize (IH s Hp).
  destruct (trimEnd a) as [|c' t].
  - destruct (is_ws d); simpl; [done|].
    destruct (ascii_dec d d); [by destruct s|done].
  - simpl. by destruct (ascii_dec d d).
Qed.

Lemma trim_no_leading_ws m c t : trim m = String c t -> is_ws c = false.
Proof.
  unfold trim.
  assert (Hstart : trimStart m = EmptyString \/
                   exists c0 t0, trimStart m = String c0 t0 /\ is_ws c0 = false).
  { induction m as [|c0 m IH]; simpl; [by left|].
    destruct (is_ws c0) eqn:E; [done|]. right. eauto. }
  destruct Hstart as [->|(c0 & t0 & -> & Hc0)]; simpl; [done|].
  destruct (trimEnd t0); [rewrite Hc0|]; by intros [= <- _].
Qed.

(** A listed prefix that starts a trimmed material still does so once it is
    trimmed itself, as the rule check does. *)
Lemma startsWith_trimmed_prefix material alt :
  startsWith (trim material) alt = true ->
  startsWith (trim material) (trim alt) = true.
Proof.
  unfold startsWith. intros Hp.
  assert (Hstart : trimStart alt = alt).
  { destruct alt as [|c a]; [done|].
    destruct (trim material) as [|d t] eqn:E; [done|]. simpl in *.
    destruct (ascii_dec c d) as [->|]; [|done].
    by rewrite (trim_no_leading_ws material d t E). }
  unfold trim at 1. rewrite Hstart. by apply prefix_trimEnd.
Qed.

Lemma checkSingleRule_satisfied lv lv' material rule :
  rule_satisfied lv material rule -> lv' <= lv ->
  _checkSingleRule lv' material rule = Normal true.
Proof.
  intros (pfx & alt & Hpfx & Halt & Hstarts & Hlv) Hle.
  assert (Hstarts' : startsWith (trim material) (trim alt) = true).
  { destruct Hstarts as [Hs|Hs]; [by apply startsWith_trimmed_prefix|done]. }
  clear Hstarts. rename Hstarts' into Hstarts.
  unfold _checkSingleRule. rewrite Hpfx.
  assert (Hex : existsb (fun prefix => _startsWith material prefix)
                        (map trim (split "|" pfx)) = true).
  { apply existsb_exists. exists (trim alt). split; [by apply in_map|done]. }
  rewrite Hex. simpl. f_equal. apply Z.leb_le. lia.
Qed.

Lemma some_rule_satisfied lv lv' material rule rules :
  Forall (fun r => is_Some (rule_prefix r)) rules ->
  In rule rules -> rule_satisfied lv material rule -> lv' <= lv ->
  some_rule lv' material rules = Normal true.
Proof.
  intros Hwell Hin Hsat Hle.
  induction rules as [|r0 rules IH]; [done|]. simpl.
  apply Forall_cons in Hwell as [[pfx0 Hp0] Hwell].
  destruct Hin as [->|Hin].
  - by rewrite (checkSingleRule_satisfied lv lv' material rule).
  - unfold _checkSingleRule at 1. rewrite Hp0.
    destruct (negb _); [by apply IH|].
    destruct (lv' <=? rule_lv r0); [done|by apply IH].
Qed.

Lemma matchesLVSpecialRule_satisfied p lv lv' material rule :
  Forall (fun r => is_Some (rule_prefix r)) (rules_of (lvSpecialRules p)) ->
  In rule (rules_of (lvSpecialRules p)) -> rule_satisfied lv material rule ->
  lv' <= lv ->
  _matchesLVSpecialRule p lv' material = Normal true.
Proof.
  unfold _matchesLVSpecialRule. destruct (lvSpecialRules p) as [|r|rs]; simpl.
  - by intros _ [].
  - intros _ [->|[]] Hsat Hle. by eapply checkSingleRule_satisfied.
  - intros. by eapply some_rule_satisfied.
Qed.

Lemma traverse_unfold p startMaterial initialUsage depth maxDepth currentLN st :
  depth <= maxDepth ->
  _traverseHierarchyUnified p startMaterial initialUsage depth maxDepth currentLN st
  = traverse_body (_traverseHierarchyUnified p)
                  p startMaterial initialUsage depth maxDepth currentLN st.
Proof.
  intros Hd. unfold _traverseHierarchyUnified at 1.
  replace (Z.to_nat (maxDepth - depth + 1))
    with (S (Z.to_nat (maxDepth - (depth + 1) + 1))) by lia.
  simpl. destruct (Z.gtb_spec depth maxDepth); [lia|].
  by apply traverse_body_ext.
Qed.

(** Symbolic execution along a path fixed by equations in the context. *)
Ltac run_with tac :=
  repeat first [ progress cbv beta iota zeta | progress cbn [visited lookups fst snd] | tac ].

(** C7: when the parent row found by the resolver does not match the
    pattern but its level and material satisfy some configured rule, the
    traversal returns the parent's material with the accumulator multiplied
    by the parent's unit usage, having made its two lookups and no further
    call. The rules are taken to be well-typed (each has a prefix string). *)
Theorem C7_secondary_rule_terminates (p : Processor) (startMaterial : string)
  (initialUsage : float) (depth maxDepth currentLN : Z) (st : EngineState)
  (currentIdx parentIdx : nat) (currentRow parentRow : Row) (rule : Rule) :
  depth <= maxDepth ->
  _findMaterialBeforeLN p startMaterial currentLN = Normal (Some currentIdx) ->
  data p !! currentIdx = Some currentRow ->
  startMaterial ∉ visited st ->
  0 < or_int (LV currentRow) (-1) ->
  Part_Number currentRow <> "" ->
  _findMaterialBeforeLN p (trim (Part_Number currentRow)) (or_int (LN currentRow) 0)
  = Normal (Some parentIdx) ->
  data p !! parentIdx = Some parentRow ->
  matchesPattern p (Material parentRow) = false ->
  Forall (fun r => is_Some (rule_prefix r)) (rules_of (lvSpecialRules p)) ->
  In rule (rules_of (lvSpecialRules p)) ->
  rule_satisfied (LV parentRow) (Material parentRow) rule ->
  _traverseHierarchyUnified p startMaterial initialUsage depth maxDepth currentLN st
  = (Normal (Material parentRow, (initialUsage * unit_usage parentRow)%float),
     mkState (visited st)
       (mkLookup (trim (Part_Number currentRow)) (or_int (LN currentRow) 0)
                 (Some parentIdx)
        :: mkLookup startMaterial currentLN (Some currentIdx) :: lookups st)).
Proof.
  intros Hdepth Hcur Hcrow Hfresh Hlv Hpn Hpar Hprow Hnomatch Hwell Hin Hsat.
  rewrite traverse_unfold by done.
  pose proof (matchesLVSpecialRule_satisfied p (LV parentRow)
                (or_int (LV parentRow) (-1)) (Material parentRow) rule
                Hwell Hin Hsat (or_int_level_le _)) as Hspecial.
  assert (Hseen : bool_decide (startMaterial ∈ visited st) = false)
    by by apply bool_decide_eq_false.
  assert (Hgo : (or_int (LV currentRow) (-1) <=? 0)
                || String.eqb (Part_Number currentRow) "" = false).
  { apply orb_false_intro; [by apply Z.leb_gt|by apply String.eqb_neq]. }
  unfold_eff.
  run_with ltac:(first [ rewrite Hcur | rewrite Hcrow | rewrite Hseen | rewrite Hgo
                       | rewrite Hpar | rewrite Hprow | rewrite Hnomatch
                       | rewrite Hspecial ]).
  simpl. by rewrite visited_restore.
Qed.

Lemma C7_secondary_rule_terminates_witness :
  _traverseHierarchyUnified
    (constructor (H := literal_engine) Samples.with_rule "45" Samples.dcs_rule)
    "M" 5%float 0 20 4 initial_state
  = (Normal (Material (mkRow 2 2 "DC02-7" "ROOT" (Some 2%float) None None),
             (5 * unit_usage (mkRow 2 2 "DC02-7" "ROOT" (Some 2%float) None None))%float),
     mkState (visited initial_state)
       (mkLookup (trim (Part_Number (mkRow 3 3 "M" "DC02-7" (Some 3%float) None None)))
                 (or_int (LN (mkRow 3 3 "M" "DC02-7" (Some 3%float) None None)) 0)
                 (Some 1%nat)
        :: mkLookup "M" 4 (Some 2%nat) :: lookups initial_state)).
Proof.
  apply (C7_secondary_rule_terminates
           (constructor (H := literal_engine) Samples.with_rule "45" Samples.dcs_rule)
           "M" 5%float 0 20 4 initial_state 2%nat 1%nat
           (mkRow 3 3 "M" "DC02-7" (Some 3%float) None None)
           (mkRow 2 2 "DC02-7" "ROOT" (Some 2%float) None None)
           (mkRule 2 (Some "DCS|DC02"))).
  - lia.
  - vm_compute. reflexivity.
  - vm_compute. reflexivity.
  - simpl. apply not_elem_of_empty.
  - vm_compute. reflexivity.
  - discriminate.
  - vm_compute. reflexivity.
  - vm_compute. reflexivity.
  - vm_compute. reflexivity.
  - repeat constructor. simpl. eauto.
  - simpl. left. reflexivity.
  - exists "DCS|DC02", "DC02".
    split; [reflexivity|]. split; [simpl; right; left; reflexivity|].
    split; [left; reflexivity|]. simpl. lia.
Defined.

(** One step of the traversal at a 43 parent: the traversal continues from
    that parent and compares the terminal of the continued traversal, not
    the chain above it, with the 45 class. *)
Lemma class_A_parent_takes_next_terminal (p : Processor) (startMaterial : string)
  (initialUsage : float) (depth maxDepth currentLN : Z) (st : EngineState)
  (currentIdx parentIdx : nat) (currentRow parentRow : Row) :
  depth <= maxDepth ->
  _findMaterialBeforeLN p startMaterial currentLN = Normal (Some currentIdx) ->
  data p !! currentIdx = Some currentRow ->
  startMaterial ∉ visited st ->
  0 < or_int (LV currentRow) (-1) ->
  Part_Number currentRow <> "" ->
  _findMaterialBeforeLN p (trim (Part_Number currentRow)) (or_int (LN currentRow) 0)
  = Normal (Some parentIdx) ->
  data p !! parentIdx = Some parentRow ->
  matchesPattern p (Material parentRow) = true ->
  _is43Pattern (Material parentRow) = true ->
  exists upstream final st',
    _traverseHierarchyUnified p (trim (Part_Number currentRow))
      (initialUsage * unit_usage parentRow)%float (depth + 1) maxDepth
      (or_int (LN currentRow) 0)
      (mkState ({[startMaterial]} ∪ visited st)
         (mkLookup (trim (Part_Number currentRow)) (or_int (LN currentRow) 0)
                   (Some parentIdx)
          :: mkLookup startMaterial currentLN (Some currentIdx) :: lookups st))
    = (Normal (upstream, final), st') /\
    _traverseHierarchyUnified p startMaterial initialUsage depth maxDepth currentLN st
    = (Normal (if _is45Pattern upstream then upstream else Material parentRow, final),
       visited_delete startMaterial st').
Proof.
  intros Hdepth Hcur Hcrow Hfresh Hlv Hpn Hpar Hprow Hmatch H43.
  match goal with
  | |- exists u f s, ?call = _ /\ _ =>
      destruct call as [c st'] eqn:Hcall
  end.
  destruct (traverse_normal (Z.to_nat (maxDepth - (depth + 1) + 1)) p
              (trim (Part_Number currentRow))
              (initialUsage * unit_usage parentRow)%float (depth + 1) maxDepth
              (or_int (LN currentRow) 0)
              (mkState ({[startMaterial]} ∪ visited st)
                 (mkLookup (trim (Part_Number currentRow)) (or_int (LN currentRow) 0)
                           (Some parentIdx)
                  :: mkLookup startMaterial currentLN (Some currentIdx) :: lookups st)))
    as ([upstream final] & st'' & Hnormal).
  unfold _traverseHierarchyUnified in Hcall at 1. rewrite Hnormal in Hcall.
  injection Hcall as <- <-.
  exists upstream, final, st''. split; [done|].
  rewrite traverse_unfold by done.
  assert (Hseen : bool_decide (startMaterial ∈ visited st) = false)
    by by apply bool_decide_eq_false.
  assert (Hgo : (or_int (LV currentRow) (-1) <=? 0)
                || String.eqb (Part_Number currentRow) "" = false).
  { apply orb_false_intro; [by apply Z.leb_gt|by apply String.eqb_neq]. }
  unfold _traverseHierarchyUnified in *. unfold_eff.
  run_with ltac:(first [ rewrite Hcur | rewrite Hcrow | rewrite Hseen | rewrite Hgo
                       | rewrite Hpar | rewrite Hprow | rewrite Hmatch | rewrite H43
                       | rewrite Hnormal ]).
  by destruct (_is45Pattern upstream).
Qed.

(** C5 (code): the chain X under Y under 43A under 64C under 45B under ROOT,
    pattern 45|43|64. Resolving X, the traversal starts at Y and finds Y's
    parent 43A, a 43 part that matches the pattern. The 45 part 45B lies
    further up 43A's ancestor chain, above the 64 part 64C. The search for a
    45 part that the traversal continues from 43A ends at 64C, the first
    pattern match above 43A, and never reaches 45B: the terminal written for
    X is 43A, not 45B, with the usage 462 = 11 * 3 * 7 * 2 * 1 accumulated
    over the whole chain. *)
Theorem C5_shadowed_as_resolved :
  Samples.resolved Samples.shadowed_processor
  = Some [ (Some "ROOT", Some 1); (Some "45B", Some 2); (Some "64C", Some 7);
           (Some "43A", Some 3); (Some "43A", Some 70); (Some "43A", Some 462) ]%float /\
  parent_row Samples.shadowed_processor 5 = Some 4%nat /\
  parent_row Samples.shadowed_processor 4 = Some 3%nat /\
  (exists r, data Samples.shadowed_processor !! 3%nat = Some r /\
             Material r = "43A" /\
             matchesPattern Samples.shadowed_processor (Material r) = true /\
             _is43Pattern (Material r) = true) /\
  ancestor Samples.shadowed_processor 3 1 /\
  (exists r, data Samples.shadowed_processor !! 1%nat = Some r /\
             Material r = "45B" /\
             matchesPattern Samples.shadowed_processor (Material r) = true /\
             _is45Pattern (Material r) = true) /\
  fst (_traverseHierarchyUnified Samples.shadowed_processor "43A" 33%float 1 20 5
         (mkState {["Y"]} [])) = Normal ("64C", 462%float) /\
  _is45Pattern "64C" = false /\
  fst (_traverseHierarchyUnified Samples.shadowed_processor "Y" 11%float 0 20 6
         initial_state) = Normal ("43A", 462%float) /\
  _is45Pattern "43A" = false.
Proof.
  split; [vm_compute; reflexivity|].
  split; [vm_compute; reflexivity|].
  split; [vm_compute; reflexivity|].
  split; [eexists; split; [reflexivity|]; repeat split; vm_compute; reflexivity|].
  split.
  { apply ancestor_step with (j := 2%nat); [vm_compute; reflexivity|].
    apply ancestor_parent. vm_compute. reflexivity. }
  split; [eexists; split; [reflexivity|]; repeat split; vm_compute; reflexivity|].
  repeat split; vm_compute; reflexivity.
Qed.

(** Where supersession does happen: the 43 parent's own parent, found by
    the resolver, matches the pattern and is a 45 part. *)
Lemma class_B_parent_of_class_A_supersedes (p : Processor) (startMaterial : string)
  (initialUsage : float) (depth maxDepth currentLN : Z) (st : EngineState)
  (currentIdx parentIdx grandIdx : nat) (currentRow parentRow grandRow : Row) :
  depth + 1 <= maxDepth ->
  _findMaterialBeforeLN p startMaterial currentLN = Normal (Some currentIdx) ->
  data p !! currentIdx = Some currentRow ->
  startMaterial ∉ visited st ->
  0 < or_int (LV currentRow) (-1) ->
  Part_Number currentRow <> "" ->
  _findMaterialBeforeLN p (trim (Part_Number currentRow)) (or_int (LN currentRow) 0)
  = Normal (Some parentIdx) ->
  data p !! parentIdx = Some parentRow ->
  matchesPattern p (Material parentRow) = true ->
  _is43Pattern (Material parentRow) = true ->
  trim (Part_Number currentRow) <> startMaterial ->
  trim (Part_Number currentRow) ∉ visited st ->
  0 < or_int (LV parentRow) (-1) ->
  Part_Number parentRow <> "" ->
  _findMaterialBeforeLN p (trim (Part_Number parentRow)) (or_int (LN parentRow) 0)
  = Normal (Some grandIdx) ->
  data p !! grandIdx = Some grandRow ->
  matchesPattern p (Material grandRow) = true ->
  _is43Pattern (Material grandRow) = false ->
  _is45Pattern (Material grandRow) = true ->
  exists usage,
    fst (_traverseHierarchyUnified p startMaterial initialUsage depth maxDepth currentLN st)
    = Normal (Material grandRow, usage).
Proof.
  intros Hdepth Hcur Hcrow Hfresh Hlv Hpn Hpar Hprow Hmatch H43
         Hne Hfresh' Hlv' Hpn' Hgrand Hgrow Hmatch' H43' H45'.
  assert (Hseen : bool_decide (startMaterial ∈ visited st) = false)
    by by apply bool_decide_eq_false.
  assert (Hseen' : bool_decide (trim (Part_Number currentRow)
                                ∈ {[startMaterial]} ∪ visited st) = false).
  { apply bool_decide_eq_false. set_solver. }
  assert (Hgo : (or_int (LV currentRow) (-1) <=? 0)
                || String.eqb (Part_Number currentRow) "" = false).
  { apply orb_false_intro; [by apply Z.leb_gt|by apply String.eqb_neq]. }
  assert (Hgo' : (or_int (LV parentRow) (-1) <=? 0)
                 || String.eqb (Part_Number parentRow) "" = false).
  { apply orb_false_intro; [by apply Z.leb_gt|by apply String.eqb_neq]. }
  rewrite traverse_unfold by lia. unfold traverse_body at 1.
  unfold try_catch, try_finally, bind, find_before, row_at, visited_has, visited_add,
    visited_delete, lift, ret, throw.
  run_with ltac:(first [ rewrite Hcur | rewrite Hcrow | rewrite Hseen | rewrite Hgo
                       | rewrite Hpar | rewrite Hprow | rewrite Hmatch | rewrite H43 ]).
  rewrite traverse_unfold by lia. unfold traverse_body at 1.
  unfold try_catch, try_finally, bind, find_before, row_at, visited_has, visited_add,
    visited_delete, lift, ret, throw.
  run_with ltac:(first [ rewrite Hpar | rewrite Hprow | rewrite Hseen' | rewrite Hgo'
                       | rewrite Hgrand | rewrite Hgrow | rewrite Hmatch'
                       | rewrite H43' ]).
  match goal with
  | |- context [_traverseHierarchyUnified ?q ?m ?u ?d ?md ?ln ?s] =>
      destruct (traverse_normal (Z.to_nat (md - d + 1)) q m u d md ln s)
        as ([up final] & st' & Hnormal)
  end.
  unfold _traverseHierarchyUnified. rewrite Hnormal.
  run_with ltac:(rewrite H45'). eauto.
Qed.

(** Where it does not: the 43 parent's own parent, found by the resolver,
    matches the pattern and is neither a 43 nor a 45 part. The result is the
    43 parent whatever lies above that row. *)
Lemma other_class_parent_of_class_A_shadows (p : Processor) (startMaterial : string)
  (initialUsage : float) (depth maxDepth currentLN : Z) (st : EngineState)
  (currentIdx parentIdx grandIdx : nat) (currentRow parentRow grandRow : Row) :
  depth + 1 <= maxDepth ->
  _findMaterialBeforeLN p startMaterial currentLN = Normal (Some currentIdx) ->
  data p !! currentIdx = Some currentRow ->
  startMaterial ∉ visited st ->
  0 < or_int (LV currentRow) (-1) ->
  Part_Number currentRow <> "" ->
  _findMaterialBeforeLN p (trim (Part_Number currentRow)) (or_int (LN currentRow) 0)
  = Normal (Some parentIdx) ->
  data p !! parentIdx = Some parentRow ->
  matchesPattern p (Material parentRow) = true ->
  _is43Pattern (Material parentRow) = true ->
  trim (Part_Number currentRow) <> startMaterial ->
  trim (Part_Number currentRow) ∉ visited st ->
  0 < or_int (LV parentRow) (-1) ->
  Part_Number parentRow <> "" ->
  _findMaterialBeforeLN p (trim (Part_Number parentRow)) (or_int (LN parentRow) 0)
  = Normal (Some grandIdx) ->
  data p !! grandIdx = Some grandRow ->
  matchesPattern p (Material grandRow) = true ->
  _is43Pattern (Material grandRow) = false ->
  _is45Pattern (Material grandRow) = false ->
  exists usage,
    fst (_traverseHierarchyUnified p startMaterial initialUsage depth maxDepth currentLN st)
    = Normal (Material parentRow, usage).
Proof.
  intros Hdepth Hcur Hcrow Hfresh Hlv Hpn Hpar Hprow Hmatch H43
         Hne Hfresh' Hlv' Hpn' Hgrand Hgrow Hmatch' H43' H45'.
  assert (Hseen : bool_decide (startMaterial ∈ visited st) = false)
    by by apply bool_decide_eq_false.
  assert (Hseen' : bool_decide (trim (Part_Number currentRow)
                                ∈ {[startMaterial]} ∪ visited st) = false).
  { apply bool_decide_eq_false. set_solver. }
  assert (Hgo : (or_int (LV currentRow) (-1) <=? 0)
                || String.eqb (Part_Number currentRow) "" = false).
  { apply orb_false_intro; [by apply Z.leb_gt|by apply String.eqb_neq]. }
  assert (Hgo' : (or_int (LV parentRow) (-1) <=? 0)
                 || String.eqb (Part_Number parentRow) "" = false).
  { apply orb_false_intro; [by apply Z.leb_gt|by apply String.eqb_neq]. }
  rewrite traverse_unfold by lia. unfold traverse_body at 1.
  unfold try_catch, try_finally, bind, find_before, row_at, visited_has, visited_add,
    visited_delete, lift, ret, throw.
  run_with ltac:(first [ rewrite Hcur | rewrite Hcrow | rewrite Hseen | rewrite Hgo
                       | rewrite Hpar | rewrite Hprow | rewrite Hmatch | rewrite H43 ]).
  rewrite traverse_unfold by lia. unfold traverse_body at 1.
  unfold try_catch, try_finally, bind, find_before, row_at, visited_has, visited_add,
    visited_delete, lift, ret, throw.
  run_with ltac:(first [ rewrite Hpar | rewrite Hprow | rewrite Hseen' | rewrite Hgo'
                       | rewrite Hgrand | rewrite Hgrow | rewrite Hmatch'
                       | rewrite H43' ]).
  match goal with
  | |- context [_traverseHierarchyUnified ?q ?m ?u ?d ?md ?ln ?s] =>
      destruct (traverse_normal (Z.to_nat (md - d + 1)) q m u d md ln s)
        as ([up final] & st' & Hnormal)
  end.
  unfold _traverseHierarchyUnified. rewrite Hnormal.
  run_with ltac:(rewrite H45'). eauto.
Qed.

(** C1 (code): the scenario as the code resolves it. ROOT gets (ROOT, 1) and
    45ABC gets (45ABC, 2) as claimed, but X1 gets (45ABC, 5): the walk starts
    at 45ABC with X1's usage 5 and multiplies by the usage of 45ABC's parent
    ROOT only, so the usage 2 of 45ABC itself never enters the product, which
    the claim puts at 5 * 2 = 10. *)
Theorem C1_scenario_as_resolved :
  Samples.resolved (constructor (H := literal_engine) Samples.scenario "45" NoRules)
  = Some [ (Some "ROOT", Some 1); (Some "45ABC", Some 2); (Some "45ABC", Some 5) ]%float
  /\ (5 * 2)%float = 10%float /\ 5%float <> 10%float.
Proof.
  split; [vm_compute; reflexivity|]. split; [reflexivity|].
  intros Heq.
  assert (E : PrimFloat.eqb 5 5 = PrimFloat.eqb 5 10) by (f_equal; exact Heq).
  vm_compute in E. discriminate E.
Qed.

(** C2 (code): the chain X (level 4) under 43A (level 3) under 45B (level 2)
    under ROOT, pattern 45|43. The orchestrator takes X's direct parent 43A
    as terminal because it matches the pattern, without looking for a 45
    part above it, and the usage is 5 * 2 * 1 = 10 (X, 45B, ROOT), not the
    product 5 * 3 * 2 = 30 of the three usages on the chain. *)
Theorem C2_tie_break_as_resolved :
  Samples.resolved (constructor (H := literal_engine) Samples.tie_break "45|43" NoRules)
  = Some [ (Some "ROOT", Some 1); (Some "45B", Some 2); (Some "43A", Some 3);
           (Some "43A", Some 10) ]%float
  /\ (5 * 3 * 2)%float = 30%float.
Proof. split; [vm_compute; reflexivity|reflexivity]. Qed.

(** The tie-break does take effect one level further down: below Y, whose
    parent is 43A, the 45 part above 43A is returned. *)
Example superseded_as_resolved :
  Samples.resolved (constructor (H := literal_engine) Samples.superseded "45|43" NoRules)
  = Some [ (Some "ROOT", Some 1); (Some "45B", Some 2); (Some "43A", Some 3);
           (Some "43A", Some 10); (Some "45B", Some 66) ]%float.
Proof. vm_compute. reflexivity. Qed.

(** ** Resolution reads neither the derived columns nor the trace *)

Lemma core_fields r1 r2 :
  core r1 = core r2 ->
  LV r2 = LV r1 /\ LN r2 = LN r1 /\ Material r2 = Material r1 /\
  Part_Number r2 = Part_Number r1 /\ unit_usage r2 = unit_usage r1.
Proof.
  unfold core, unit_usage. intros [= -> -> -> -> ->]. done.
Qed.

Lemma agree_lookup rows1 rows2 i :
  map core rows1 = map core rows2 ->
  (exists r1 r2, rows1 !! i = Some r1 /\ rows2 !! i = Some r2 /\ core r1 = core r2)
  \/ (rows1 !! i = None /\ rows2 !! i = None).
Proof.
  intros Hc.
  assert (Hi : core <$> rows1 !! i = core <$> rows2 !! i).
  { rewrite <- !list_lookup_fmap.
    change (core <$> rows1) with (map core rows1).
    change (core <$> rows2) with (map core rows2). by rewrite Hc. }
  destruct (rows1 !! i) as [r1|], (rows2 !! i) as [r2|]; simpl in Hi; try done.
  - left. exists r1, r2. repeat split; congruence.
  - by right.
Qed.

Lemma agree_scan_back rows1 rows2 b l :
  map core rows1 = map core rows2 ->
  scan_back rows2 b l = scan_back rows1 b l.
Proof.
  intros Hc. induction l as [|i l IH]; simpl; [done|].
  destruct (agree_lookup rows1 rows2 i Hc) as [(r1 & r2 & -> & -> & Hr)|[-> ->]]; [|done].
  destruct (core_fields r1 r2 Hr) as (_ & -> & _). by rewrite IH.
Qed.

Lemma agree_find p1 p2 m b :
  agree p1 p2 -> _findMaterialBeforeLN p2 m b = _findMaterialBeforeLN p1 m b.
Proof.
  intros (Hd & Hi & _). unfold _findMaterialBeforeLN. rewrite Hi.
  destruct (materialIndex p2 !! m); [|done]. by apply agree_scan_back.
Qed.

Lemma agree_matchesPattern p1 p2 s :
  agree p1 p2 -> matchesPattern p2 s = matchesPattern p1 s.
Proof. intros (_ & _ & _ & Hm). unfold matchesPattern. by rewrite Hm. Qed.

Lemma agree_special p1 p2 lv m :
  agree p1 p2 -> _matchesLVSpecialRule p2 lv m = _matchesLVSpecialRule p1 lv m.
Proof. intros (_ & _ & Hr & _). unfold _matchesLVSpecialRule. by rewrite Hr. Qed.

Ltac sync_rows Hagree :=
  match goal with
  | |- context [data ?p1 !! ?n] =>
      lazymatch goal with
      | _ : data p1 !! n = _ |- _ => fail
      | _ => idtac
      end;
      let r1 := fresh "r" in let r2 := fresh "r" in
      let E1 := fresh "Erow" in let E2 := fresh "Erow" in let Hc := fresh "Hc" in
      destruct (agree_lookup _ _ n (proj1 Hagree))
        as [(r1 & r2 & E1 & E2 & Hc)|[E1 E2]];
      rewrite ?E1, ?E2;
      try (apply core_fields in Hc;
           let HLV := fresh "HLV" in let HLN := fresh "HLN" in
           let HM := fresh "HM" in let HPN := fresh "HPN" in let HU := fresh "HU" in
           destruct Hc as (HLV & HLN & HM & HPN & HU);
           rewrite ?HLV, ?HLN, ?HM, ?HPN, ?HU)
  end.

Lemma traverse_body_agree self1 self2 p1 p2 startMaterial initialUsage
    depth maxDepth currentLN st1 st2 :
  agree p1 p2 -> visited st1 = visited st2 ->
  (forall m u d md ln s1 s2, visited s1 = visited s2 ->
     fst (self1 m u d md ln s1) = fst (self2 m u d md ln s2)) ->
  fst (traverse_body self1 p1 startMaterial initialUsage depth maxDepth currentLN st1)
  = fst (traverse_body self2 p2 startMaterial initialUsage depth maxDepth currentLN st2).
Proof.
  intros Hagree Hvis Hself. destruct st1 as [v1 l1], st2 as [v2 l2].
  simpl in Hvis. subst v2. unfold_eff.
  repeat first
    [ rewrite (agree_find p1 p2) by done
    | rewrite (agree_matchesPattern p1 p2) by done
    | rewrite (agree_special p1 p2) by done
    | progress cbn [visited lookups]
    | sync_rows Hagree
    | eff_step ].
  all: simpl; try done.
  all: match goal with
       | E1 : ?f1 ?m ?u ?d ?md ?ln ?s1 = (?c1, _),
         E2 : ?f2 ?m ?u ?d ?md ?ln ?s2 = (?c2, _) |- _ =>
           let Hx := fresh "Hx" in
           pose proof (Hself m u d md ln s1 s2 eq_refl) as Hx;
           rewrite E1, E2 in Hx; simpl in Hx
       end; simplify_eq; try done; congruence.
Qed.

Lemma traverse_agree budget p1 p2 :
  agree p1 p2 ->
  forall m u d md ln s1 s2, visited s1 = visited s2 ->
    fst (traverse budget p1 m u d md ln s1) = fst (traverse budget p2 m u d md ln s2).
Proof.
  intros Hagree. induction budget as [|budget IH]; intros m u d md ln s1 s2 Hvis; simpl.
  - by destruct (d >? md).
  - destruct (d >? md); [done|]. by apply traverse_body_agree.
Qed.

Lemma resolve_row_agree p1 p2 r1 r2 st1 st2 :
  agree p1 p2 -> core r1 = core r2 ->
  fst (resolve_row p1 r1 st1) = fst (resolve_row p2 r2 st2).
Proof.
  intros Hagree (HLV & HLN & HM & HPN & HU)%core_fields.
  unfold resolve_row, _traverseHierarchyUnified.
  rewrite HLV, HLN, HM, HPN, HU. unfold_eff.
  repeat first
    [ rewrite (agree_matchesPattern p1 p2) by done
    | rewrite (agree_special p1 p2) by done
    | eff_step ].
  all: simpl; try done.
  all: match goal with
       | E1 : traverse ?n ?q1 ?m ?u ?d ?md ?ln ?s1 = (?c1, _),
         E2 : traverse ?n ?q2 ?m ?u ?d ?md ?ln ?s2 = (?c2, _) |- _ =>
           let Hx := fresh "Hx" in
           pose proof (traverse_agree n q1 q2 Hagree m u d md ln s1 s2 eq_refl) as Hx;
           rewrite E1, E2 in Hx; simpl in Hx
       end; simplify_eq; try done; congruence.
Qed.

Lemma resolve_rows_agree p1 p2 rows1 rows2 :
  agree p1 p2 -> map core rows1 = map core rows2 ->
  forall st1 st2,
    fst (resolve_rows p1 rows1 st1) = fst (resolve_rows p2 rows2 st2).
Proof.
  intros Hagree. revert rows2.
  induction rows1 as [|r1 rows1 IH]; intros [|r2 rows2] Hc st1 st2; try done.
  assert (Hr : core r1 = core r2) by (simpl in Hc; congruence).
  assert (Hc' : map core rows1 = map core rows2) by (simpl in Hc; congruence).
  clear Hc. simpl. unfold bind, ret.
  pose proof (resolve_row_agree p1 p2 r1 r2 st1 st2 Hagree Hr) as Hrow.
  destruct (resolve_row p1 r1 st1) as [[x1|e1] s1],
           (resolve_row p2 r2 st2) as [[x2|e2] s2]; simpl in Hrow; simplify_eq; [|done].
  specialize (IH rows2 Hc' s1 s2).
  destruct (resolve_rows p1 rows1 s1) as [[xs1|e1] s1'],
           (resolve_rows p2 rows2 s2) as [[xs2|e2] s2']; simpl in IH; by simplify_eq.
Qed.

Lemma resolve_rows_length p rows : forall st results st',
  resolve_rows p rows st = (Normal results, st') -> length results = length rows.
Proof.
  induction rows as [|r rows IH]; intros st results st'; simpl; unfold bind, ret.
  - by intros [= <- _].
  - destruct (resolve_row p r st) as [[x|e] s]; [|done].
    destruct (resolve_rows p rows s) as [[xs|e] s'] eqn:E; [|done].
    intros [= <- _]. simpl. f_equal. by eapply IH.
Qed.

Lemma commit_core rows : forall results,
  map core (commit rows results) = map core rows.
Proof.
  induction rows as [|r rows IH]; intros [|[s u] results]; simpl; try done.
  by rewrite IH.
Qed.

Lemma commit_derived rows : forall results,
  length results = length rows ->
  map derived (commit rows results) = map (fun r => (Some (fst r), Some (snd r))) results.
Proof.
  induction rows as [|r rows IH]; intros [|[s u] results] Hlen; simpl in *; try done.
  rewrite IH by lia. done.
Qed.

Lemma commit_length rows : forall results, length (commit rows results) = length rows.
Proof.
  induction rows as [|r rows IH]; intros [|[s u] results]; simpl; try done.
  by rewrite IH.
Qed.

(** ** The processor object: private rows, idempotent [process] *)

Lemma deref_cons h l ls :
  Store.deref h (l :: ls) =
    match h !! l with
    | Some r => r :: Store.deref h ls
    | None => Store.deref h ls
    end.
Proof. done. Qed.

Lemma deref_alter_other h f (l : positive) ls :
  l ∉ ls -> Store.deref (alter f l h) ls = Store.deref h ls.
Proof.
  induction ls as [|l' ls IH]; intros Hl; [done|].
  apply not_elem_of_cons in Hl as [Hne Hl].
  rewrite !deref_cons, lookup_alter_ne by done. by rewrite IH.
Qed.

Lemma alloc_rows_spec rows : forall h h' ls,
  Store.alloc_rows h rows = (h', ls) ->
  NoDup ls /\ (forall l, l ∈ ls -> l ∉ dom h) /\
  (forall l, l ∉ ls -> h' !! l = h !! l) /\
  (forall l, l ∈ ls -> is_Some (h' !! l)) /\
  Store.deref h' ls = rows.
Proof.
  induction rows as [|r rows IH]; intros h h' ls; simpl.
  - intros [= <- <-]. repeat split; try done; [constructor|by intros l ?%elem_of_nil..].
  - destruct (Store.alloc_rows (<[fresh (dom h):=r]> h) rows) as [h1 ls1] eqn:E.
    intros [= <- <-].
    destruct (IH _ _ _ E) as (Hnd & Hfresh & Hkeep & Hsome & Hderef).
    assert (Hnew : fresh (dom h) ∉ dom h) by apply is_fresh.
    assert (Hnotin : fresh (dom h) ∉ ls1).
    { intros Hin. apply (Hfresh _ Hin). rewrite dom_insert_L. set_solver. }
    assert (Hat : h1 !! fresh (dom h) = Some r).
    { by rewrite Hkeep, lookup_insert_eq. }
    split; [by constructor|]. split; [|split; [|split]].
    + intros l [->|Hl]%elem_of_cons; [done|].
      specialize (Hfresh l Hl). rewrite dom_insert_L in Hfresh. set_solver.
    + intros l [Hne Hl]%not_elem_of_cons.
      by rewrite Hkeep, lookup_insert_ne.
    + intros l [->|Hl]%elem_of_cons; [by rewrite Hat|auto].
    + by rewrite deref_cons, Hat, Hderef.
Qed.

Lemma reindex_in_place_spec ls : forall h s,
  NoDup ls -> (forall l, l ∈ ls -> is_Some (h !! l)) ->
  (forall l, l ∉ ls -> Store.reindex_in_place h s ls !! l = h !! l) /\
  (forall l, l ∈ ls -> is_Some (Store.reindex_in_place h s ls !! l)) /\
  Store.deref (Store.reindex_in_place h s ls) ls = reindex_from s (Store.deref h ls).
Proof.
  induction ls as [|l ls IH]; intros h s Hnd Hsome; cbn [Store.reindex_in_place].
  - repeat split; try done; by intros l ?%elem_of_nil.
  - apply NoDup_cons in Hnd as [Hl Hnd].
    destruct (Hsome l) as [r Hr]; [set_solver|].
    destruct (IH (alter (fun r => set_LN r s) l h) (s + 1) Hnd)
      as (Hkeep & Hsome' & Hderef).
    { intros l' Hl'. rewrite lookup_alter_ne by set_solver. apply Hsome. set_solver. }
    assert (Hat : Store.reindex_in_place (alter (fun r => set_LN r s) l h) (s + 1) ls !! l
                  = Some (set_LN r s)).
    { by rewrite Hkeep, lookup_alter_eq, Hr. }
    split; [|split].
    + intros l' [Hne Hl']%not_elem_of_cons.
      by rewrite Hkeep, lookup_alter_ne.
    + intros l' [->|Hl']%elem_of_cons; [by rewrite Hat|auto].
    + rewrite !deref_cons, Hat, Hr, Hderef. simpl.
      by rewrite deref_alter_other.
Qed.

Lemma commit_in_place_spec ls : forall h results,
  NoDup ls -> (forall l, l ∈ ls -> is_Some (h !! l)) ->
  (forall l, l ∉ ls -> Store.commit_in_place h ls results !! l = h !! l) /\
  Store.deref (Store.commit_in_place h ls results) ls = commit (Store.deref h ls) results.
Proof.
  induction ls as [|l ls IH]; intros h results Hnd Hsome; cbn [Store.commit_in_place].
  - by destruct results.
  - apply NoDup_cons in Hnd as [Hl Hnd].
    destruct (Hsome l) as [r Hr]; [set_solver|].
    destruct results as [|[s u] results].
    { split; [done|]. rewrite deref_cons, Hr. done. }
    destruct (IH (alter (fun r => set_derived r s u) l h) results Hnd)
      as (Hkeep & Hderef).
    { intros l' Hl'. rewrite lookup_alter_ne by set_solver. apply Hsome. set_solver. }
    assert (Hat : Store.commit_in_place (alter (fun r => set_derived r s u) l h) ls results
                  !! l = Some (set_derived r s u)).
    { by rewrite Hkeep, lookup_alter_eq, Hr. }
    split.
    + intros l' [Hne Hl']%not_elem_of_cons.
      by rewrite Hkeep, lookup_alter_ne.
    + rewrite !deref_cons, Hat, Hr, Hderef. simpl.
      by rewrite deref_alter_other.
Qed.

Lemma new_spec `{RegExpEngine} h input pattern rules h0 this :
  Store.new h input pattern rules = (h0, this) ->
  NoDup (Store.this_data this) /\
  (forall l, l ∈ Store.this_data this -> (l ∉ dom h) /\ is_Some (h0 !! l)) /\
  (forall l, l ∈ dom h -> h0 !! l = h !! l) /\
  Store.view h0 this = constructor (Store.deref h input) pattern rules.
Proof.
  unfold Store.new, Store.deep_copy.
  destruct (Store.alloc_rows h (json_clone (Store.deref h input))) as [h1 copy] eqn:E.
  intros [= <- <-]. cbn [Store.this_data].
  destruct (alloc_rows_spec _ _ _ _ E) as (Hnd & Hfresh & Hkeep & Hsome & Hderef).
  destruct (reindex_in_place_spec copy h1 1 Hnd Hsome) as (Hkeep' & Hsome' & Hderef').
  split; [done|]. split; [|split].
  - intros l Hl. split; [by apply Hfresh|by apply Hsome'].
  - intros l Hl.
    assert (l ∉ copy) by (intros Hin; by apply (Hfresh l Hin)).
    by rewrite Hkeep', Hkeep.
  - unfold Store.view, with_data, constructor, _reindexLN.
    simpl. by rewrite Hderef', Hderef.
Qed.

Lemma view_agree h h' this :
  map core (Store.deref h (Store.this_data this))
  = map core (Store.deref h' (Store.this_data this)) ->
  agree (Store.view h this) (Store.view h' this).
Proof. intros Hc. by repeat split. Qed.

(** C9: a processor constructed from the caller's table [input] in store
    [h] and asked to [process] twice writes the same derived columns both
    times and completes the same way; construction and both calls leave every
    object of the caller's store, the rows of [input] among them, as they
    were. *)
Theorem C9_process_idempotent `{RegExpEngine} (h : gmap positive Row)
  (input : list positive) (pattern : string) (rules : SpecialRules) :
  let '(h0, this) := Store.new h input pattern rules in
  let '(out1, (h1, st1)) := Store.process h0 this initial_state in
  let '(out2, (h2, st2)) := Store.process h1 this st1 in
  out1 = out2 /\
  map derived (Store.deref h1 (Store.this_data this))
  = map derived (Store.deref h2 (Store.this_data this)) /\
  (forall l, l ∈ dom h -> h0 !! l = h !! l /\ h1 !! l = h !! l /\ h2 !! l = h !! l) /\
  (forall l r, l ∈ input -> h !! l = Some r ->
     h0 !! l = Some r /\ h1 !! l = Some r /\ h2 !! l = Some r).
Proof.
  assert (Hrows : forall h0 h1 h2 : gmap positive Row,
            (forall l, l ∈ dom h ->
               h0 !! l = h !! l /\ h1 !! l = h !! l /\ h2 !! l = h !! l) ->
            forall l r, l ∈ input -> h !! l = Some r ->
              h0 !! l = Some r /\ h1 !! l = Some r /\ h2 !! l = Some r).
  { intros g0 g1 g2 Hkeep l r _ Hr.
    destruct (Hkeep l) as (-> & -> & ->); [by apply elem_of_dom|done]. }
  destruct (Store.new h input pattern rules) as [h0 this] eqn:Enew.
  destruct (new_spec _ _ _ _ _ _ Enew) as (Hnd & Hdata & Hkeep0 & _).
  assert (Hout : forall l, l ∈ dom h -> l ∉ Store.this_data this).
  { intros l Hl Hin. by destruct (Hdata l Hin). }
  assert (Hsome0 : forall l, l ∈ Store.this_data this -> is_Some (h0 !! l)).
  { intros l Hl. by destruct (Hdata l Hl). }
  unfold Store.process.
  set (ls := Store.this_data this) in *.
  set (p0 := Store.view h0 this).
  destruct (resolve_rows p0 (data p0) initial_state) as [[results1|e1] st1] eqn:E1.
  - destruct (commit_in_place_spec ls h0 results1 Hnd Hsome0) as (Hkeep1 & Hderef1).
    set (h1 := Store.commit_in_place h0 ls results1) in *.
    set (p1 := Store.view h1 this).
    assert (Hlen1 : length results1 = length (data p0))
      by (by eapply resolve_rows_length).
    assert (Hagree : agree p0 p1).
    { apply view_agree. fold ls. rewrite Hderef1. by rewrite commit_core. }
    pose proof (resolve_rows_agree p0 p1 (data p0) (data p1) Hagree (proj1 Hagree)
                  initial_state st1) as Hsame.
    rewrite E1 in Hsame.
    destruct (resolve_rows p1 (data p1) st1) as [[results2|e2] st2] eqn:E2;
      simpl in Hsame; [|done]. injection Hsame as <-.
    assert (Hsome1 : forall l, l ∈ ls -> is_Some (h1 !! l)).
    { intros l Hl. apply (elem_of_dom h1).
      assert (Hd : length (Store.deref h1 ls) = length ls).
      { rewrite Hderef1, commit_length.
        clear -Hsome0. induction ls as [|l0 ls IH]; [done|].
        rewrite deref_cons. destruct (Hsome0 l0) as [r ->]; [set_solver|].
        simpl. f_equal. apply IH. intros. apply Hsome0. set_solver. }
      clear -Hd Hl. revert Hd Hl. generalize h1. clear.
      induction ls as [|l0 ls IH]; intros h1 Hd Hl; [by apply elem_of_nil in Hl|].
      rewrite deref_cons in Hd.
      assert (Hle : (length (Store.deref h1 ls) <= length ls)%nat).
      { clear. induction ls as [|a ls IH]; [done|]. rewrite deref_cons.
        destruct (h1 !! a); simpl; lia. }
      destruct (h1 !! l0) as [r|] eqn:E0; simpl in Hd; [|lia].
      apply elem_of_cons in Hl as [->|Hl]; [by apply elem_of_dom|].
      apply IH; [lia|done]. }
    destruct (commit_in_place_spec ls h1 results1 Hnd Hsome1) as (Hkeep2 & Hderef2).
    assert (Hkeep : forall l, l ∈ dom h ->
              h0 !! l = h !! l /\ h1 !! l = h !! l /\
              Store.commit_in_place h1 ls results1 !! l = h !! l).
    { intros l Hl. specialize (Hout l Hl).
      rewrite Hkeep2, Hkeep1 by done. by rewrite Hkeep0. }
    split; [done|]. split; [|split; [done|by apply Hrows]].
    rewrite Hderef2, Hderef1.
    rewrite !commit_derived; try done; by rewrite ?commit_length.
  - assert (Hagree : agree p0 p0) by by repeat split.
    pose proof (resolve_rows_agree p0 p0 (data p0) (data p0) Hagree eq_refl
                  initial_state st1) as Hsame.
    rewrite E1 in Hsame. fold p0.
    destruct (resolve_rows p0 (data p0) st1) as [[results2|e2] st2] eqn:E2;
      simpl in Hsame; [done|]. injection Hsame as <-.
    assert (Hkeep : forall l, l ∈ dom h ->
              h0 !! l = h !! l /\ h0 !! l = h !! l /\ h0 !! l = h !! l).
    { intros l Hl. by rewrite Hkeep0. }
    split; [done|]. split; [done|]. split; [done|by apply Hrows].
Qed.

(** The object's [process] is the engine's [process] on the rows it holds. *)
Lemma store_process_is_process `{RegExpEngine} h input pattern rules h0 this st :
  Store.new h input pattern rules = (h0, this) ->
  match Store.process h0 this st, process (Store.view h0 this) st with
  | (Normal out, (h1, st1)), (Normal p1, st1') =>
      out = Store.this_data this /\ Store.view h1 this = p1 /\ st1 = st1'
  | (Thrown e, (h1, st1)), (Thrown e', st1') => e = e' /\ h1 = h0 /\ st1 = st1'
  | _, _ => False
  end.
Proof.
  intros Enew.
  destruct (new_spec _ _ _ _ _ _ Enew) as (Hnd & Hdata & _ & _).
  unfold Store.process, process, bind, ret.
  destruct (resolve_rows (Store.view h0 this) (data (Store.view h0 this)) st)
    as [[results|e] st1]; [|done].
  split; [done|]. split; [|done].
  destruct (commit_in_place_spec (Store.this_data this) h0 results Hnd) as (_ & Hderef).
  { intros l Hl. by destruct (Hdata l Hl). }
  unfold Store.view, with_data. simpl. by rewrite Hderef.
Qed.

(** The scenario run through the object: the derived columns are written
    into the processor's own rows; the caller's rows stay as they were. *)
Example store_scenario_run :
  let '(h0, this) := Store.new (H := literal_engine) Samples.scenario_store
                       Samples.scenario_table "45" NoRules in
  let '(out, (h1, _)) := Store.process h0 this initial_state in
  out = Normal (Store.this_data this) /\
  map derived (Store.deref h1 (Store.this_data this))
  = [ (Some "ROOT", Some 1); (Some "45ABC", Some 2); (Some "45ABC", Some 5) ]%float /\
  Store.deref h1 Samples.scenario_table = Samples.scenario.
Proof. vm_compute. repeat split. Qed.

(** * Further properties of the processor *)

(** ** Construction: sequence numbers and index *)

Lemma reindex_from_ignores_LN rows1 : forall rows2 s,
  map (fun r => set_LN r 0) rows1 = map (fun r => set_LN r 0) rows2 ->
  reindex_from s rows1 = reindex_from s rows2.
Proof.
  induction rows1 as [|r1 rows1 IH]; intros [|r2 rows2] s Heq; simpl in *; try done.
  injection Heq as HLV HM HPN HU HS HT Hrows.
  rewrite (IH rows2 (s + 1) Hrows). f_equal.
  unfold set_LN. by rewrite HLV, HM, HPN, HU, HS, HT.
Qed.

Lemma json_clone_set_LN rows n :
  map (fun r => set_LN r n) (json_clone rows)
  = json_clone (map (fun r => set_LN r n) rows).
Proof. unfold json_clone. rewrite !map_map. done. Qed.

(** X1: construction overwrites the sequence numbers. Two input tables that
    differ at most in their [LN] column give the same processor (same rows,
    same index, same matcher), and the row at position [i] of the processor
    is the JSON copy of the input row with [LN] set to [i + 1]. *)
Theorem constructor_ignores_input_LN `{RegExpEngine} (input1 input2 : list Row)
  (pattern : string) (rules : SpecialRules) :
  map (fun r => set_LN r 0) input1 = map (fun r => set_LN r 0) input2 ->
  constructor input1 pattern rules = constructor input2 pattern rules /\
  length (data (constructor input1 pattern rules)) = length input1 /\
  forall i r0, input1 !! i = Some r0 ->
    data (constructor input1 pattern rules) !! i
    = Some (set_LN (json_clone_row r0) (Z.of_nat i + 1)).
Proof.
  intros Heq.
  assert (Hdata : _reindexLN (json_clone input1) = _reindexLN (json_clone input2)).
  { apply reindex_from_ignores_LN. by rewrite !json_clone_set_LN, Heq. }
  split; [|split].
  - unfold constructor. by rewrite Hdata.
  - simpl. unfold _reindexLN, json_clone.
    generalize 1. induction input1 as [|r rows IH]; intros s; simpl; [done|].
    f_equal. clear Heq Hdata.
    assert (Hlen : forall l s, length (reindex_from s l) = length l).
    { clear. induction l as [|a l IHl]; intros s; simpl; [done|by rewrite IHl]. }
    by rewrite Hlen, length_map.
  - intros i r0 Hi. simpl. unfold _reindexLN. rewrite reindex_from_lookup.
    unfold json_clone.
    change (map json_clone_row input1) with (json_clone_row <$> input1).
    rewrite list_lookup_fmap, Hi. simpl. do 2 f_equal. lia.
Qed.

Lemma constructor_ignores_input_LN_witness :
  constructor (H := literal_engine)
    [ mkRow 1 7 "ROOT" "" (Some 1%float) None None;
      mkRow 2 3 "45ABC" "ROOT" (Some 2%float) None None ] "45" NoRules
  = constructor (H := literal_engine)
      [ mkRow 1 0 "ROOT" "" (Some 1%float) None None;
        mkRow 2 0 "45ABC" "ROOT" (Some 2%float) None None ] "45" NoRules /\
  length (data (constructor (H := literal_engine)
                  [ mkRow 1 7 "ROOT" "" (Some 1%float) None None;
                    mkRow 2 3 "45ABC" "ROOT" (Some 2%float) None None ] "45" NoRules))
  = length [ mkRow 1 7 "ROOT" "" (Some 1%float) None None;
             mkRow 2 3 "45ABC" "ROOT" (Some 2%float) None None ] /\
  forall i r0,
    [ mkRow 1 7 "ROOT" "" (Some 1%float) None None;
      mkRow 2 3 "45ABC" "ROOT" (Some 2%float) None None ] !! i = Some r0 ->
    data (constructor (H := literal_engine)
            [ mkRow 1 7 "ROOT" "" (Some 1%float) None None;
              mkRow 2 3 "45ABC" "ROOT" (Some 2%float) None None ] "45" NoRules) !! i
    = Some (set_LN (json_clone_row r0) (Z.of_nat i + 1)).
Proof.
  apply (constructor_ignores_input_LN (H := literal_engine)
           [ mkRow 1 7 "ROOT" "" (Some 1%float) None None;
             mkRow 2 3 "45ABC" "ROOT" (Some 2%float) None None ]
           [ mkRow 1 0 "ROOT" "" (Some 1%float) None None;
             mkRow 2 0 "45ABC" "ROOT" (Some 2%float) None None ] "45" NoRules).
  reflexivity.
Defined.

(** X2: the material index after construction. A code has an entry exactly
    when it is non-blank and is the trimmed material of some row; the entry
    lists exactly the positions of the rows with that trimmed material, in
    increasing order, so it is never empty and never lists a position
    twice. *)
Theorem material_index_lists_occurrences `{RegExpEngine} (input : list Row)
  (pattern : string) (rules : SpecialRules) (m : string) :
  let p := constructor input pattern rules in
  (materialIndex p !! m = None <->
   m = "" \/ forall i r, data p !! i = Some r -> trim (Material r) <> m) /\
  (forall indices, materialIndex p !! m = Some indices ->
     m <> "" /\ indices <> [] /\
     StronglySorted (fun a b => (a < b)%nat) indices /\
     forall i, i ∈ indices <-> exists r, data p !! i = Some r /\ trim (Material r) = m).
Proof.
  intros p.
  destruct (constructor_well_formed input pattern rules) as [_ Hidx].
  fold p in Hidx. rewrite Hidx.
  assert (Hocc : forall j, j ∈ occurrences m 0 (data p) <->
            exists r, data p !! j = Some r /\ trim (Material r) = m).
  { intros j. rewrite occurrences_elem, Nat.sub_0_r. split.
    - by intros [_ ?].
    - intros ?. split; [lia|done]. }
  destruct (String.eqb_spec m "") as [->|Hm].
  { split; [|done]. split; [by left|done]. }
  pose proof (occurrences_sorted m (data p) 0) as Hsorted.
  destruct (occurrences m 0 (data p)) as [|i0 occ] eqn:Eocc.
  - split; [|done]. split; [|done]. intros _. right. intros i r Hr Hmat.
    assert (i ∈ @nil nat) as ?%elem_of_nil by (apply Hocc; eauto). done.
  - split.
    + split; [done|]. intros [?|Hnone]; [done|]. exfalso.
      assert (i0 ∈ i0 :: occ) as (r & Hr & Hmat)%Hocc by (by left).
      by apply (Hnone i0 r).
    + intros indices [= <-]. repeat split; try done. all: by apply Hocc.
Qed.

(** ** Special-rule evaluator *)

Lemma checkSingleRule_spec lv material rule pfx :
  rule_prefix rule = Some pfx ->
  exists b, _checkSingleRule lv material rule = Normal b /\
            (b = true <-> rule_satisfied lv material rule).
Proof.
  intros Hpfx.
  destruct (_checkSingleRule lv material rule) as [b|e] eqn:E.
  2: { unfold _checkSingleRule in E. rewrite Hpfx in E.
       by destruct (negb _) in E. }
  exists b. split; [done|]. split.
  - intros ->. unfold _checkSingleRule in E. rewrite Hpfx in E.
    destruct (existsb _ _) eqn:Hex; simpl in E; [|done].
    apply existsb_exists in Hex as (x & Hx & Hstarts).
    apply in_map_iff in Hx as (alt & <- & Halt).
    injection E as Hle. apply Z.leb_le in Hle.
    exists pfx, alt. repeat split; try done. by right.
  - intros Hsat.
    rewrite (checkSingleRule_satisfied lv lv material rule Hsat) in E by lia.
    by injection E.
Qed.

Lemma some_rule_spec lv material rules :
  Forall (fun r => is_Some (rule_prefix r)) rules ->
  exists b, some_rule lv material rules = Normal b /\
            (b = true <-> exists rule, In rule rules /\ rule_satisfied lv material rule).
Proof.
  induction rules as [|r0 rules IH]; intros Hwell; simpl.
  - exists false. split; [done|]. split; [done|]. by intros (? & [] & _).
  - apply Forall_cons in Hwell as [[pfx0 Hp0] Hwell].
    destruct (checkSingleRule_spec lv material r0 pfx0 Hp0) as (b0 & -> & Hb0).
    destruct b0.
    + exists true. split; [done|]. split; [|done]. intros _.
      exists r0. split; [by left|by apply Hb0].
    + destruct (IH Hwell) as (b & -> & Hb). exists b. split; [done|].
      rewrite Hb. split.
      * intros (rule & Hin & Hsat). exists rule. split; [by right|done].
      * intros (rule & [<-|Hin] & Hsat); [|eauto].
        by apply Hb0 in Hsat.
Qed.

Lemma matchesLVSpecialRule_some_rule p lv material :
  Forall (fun r => is_Some (rule_prefix r)) (rules_of (lvSpecialRules p)) ->
  _matchesLVSpecialRule p lv material
  = some_rule lv material (rules_of (lvSpecialRules p)).
Proof.
  intros Hwell. unfold _matchesLVSpecialRule.
  destruct (lvSpecialRules p) as [|r|rs] eqn:Er; simpl; try done.
  simpl in Hwell. apply Forall_cons in Hwell as [[pfx Hp] _].
  by destruct (checkSingleRule_spec lv material r pfx Hp) as ([] & -> & _).
Qed.

(** X3: the special-rule check, for a configuration in which every rule has
    a prefix string. It never throws, and it answers true exactly when some
    configured rule is satisfied: one of the rule's pipe-separated prefixes
    (trimmed) starts the trimmed material and the level is at most the
    rule's bound. A single rule object answers as the one-element array. So
    an answer true at some level stays true at every lower level. *)
Theorem special_rule_check_characterised (p : Processor) (lv : Z) (material : string) :
  Forall (fun r => is_Some (rule_prefix r)) (rules_of (lvSpecialRules p)) ->
  (exists b, _matchesLVSpecialRule p lv material = Normal b /\
     (b = true <->
      exists rule, In rule (rules_of (lvSpecialRules p)) /\
                   rule_satisfied lv material rule)) /\
  _matchesLVSpecialRule p lv material
  = some_rule lv material (rules_of (lvSpecialRules p)) /\
  (forall lv', lv' <= lv ->
     _matchesLVSpecialRule p lv material = Normal true ->
     _matchesLVSpecialRule p lv' material = Normal true).
Proof.
  intros Hwell.
  pose proof (matchesLVSpecialRule_some_rule p lv material Hwell) as Hsome.
  destruct (some_rule_spec lv material _ Hwell) as (b & Hb & Hiff).
  split; [|split; [done|]].
  - exists b. by rewrite Hsome.
  - intros lv' Hle Htrue. rewrite Hsome, Hb in Htrue. injection Htrue as ->.
    destruct (proj1 Hiff eq_refl) as (rule & Hin & Hsat).
    destruct Hsat as (pfx & alt & Hp & Halt & Hstarts & Hlv).
    apply (matchesLVSpecialRule_satisfied p lv lv' material rule); try done.
    by exists pfx, alt.
Qed.

Lemma special_rule_check_characterised_witness :
  (exists b,
     _matchesLVSpecialRule
       (constructor (H := literal_engine) Samples.with_rule "45" Samples.dcs_rule)
       2 "DC02-7" = Normal b /\
     (b = true <->
      exists rule,
        In rule (rules_of (lvSpecialRules
                   (constructor (H := literal_engine) Samples.with_rule "45"
                                Samples.dcs_rule))) /\
        rule_satisfied 2 "DC02-7" rule)) /\
  _matchesLVSpecialRule
    (constructor (H := literal_engine) Samples.with_rule "45" Samples.dcs_rule)
    2 "DC02-7"
  = some_rule 2 "DC02-7"
      (rules_of (lvSpecialRules
         (constructor (H := literal_engine) Samples.with_rule "45" Samples.dcs_rule))) /\
  (forall lv', lv' <= 2 ->
     _matchesLVSpecialRule
       (constructor (H := literal_engine) Samples.with_rule "45" Samples.dcs_rule)
       2 "DC02-7" = Normal true ->
     _matchesLVSpecialRule
       (constructor (H := literal_engine) Samples.with_rule "45" Samples.dcs_rule)
       lv' "DC02-7" = Normal true).
Proof.
  apply (special_rule_check_characterised
           (constructor (H := literal_engine) Samples.with_rule "45" Samples.dcs_rule)
           2 "DC02-7").
  repeat constructor. simpl. eauto.
Defined.

(** X4: a blank alternative in a rule's prefix list (an empty prefix, a
    trailing or doubled pipe) starts every material: at or below the rule's
    level the rule check then answers true for every material, the empty one
    included. *)
Theorem blank_prefix_matches_every_material (p : Processor) (rule : Rule)
  (pfx alt : string) (lv : Z) (material : string) :
  Forall (fun r => is_Some (rule_prefix r)) (rules_of (lvSpecialRules p)) ->
  In rule (rules_of (lvSpecialRules p)) ->
  rule_prefix rule = Some pfx ->
  In alt (split "|" pfx) ->
  trim alt = "" ->
  lv <= rule_lv rule ->
  _matchesLVSpecialRule p lv material = Normal true.
Proof.
  intros Hwell Hin Hpfx Halt Hblank Hlv.
  apply (matchesLVSpecialRule_satisfied p lv lv material rule); try done.
  exists pfx, alt. repeat split; try done.
  right. rewrite Hblank. unfold startsWith. by destruct (trim material).
Qed.

Lemma blank_prefix_matches_every_material_witness :
  _matchesLVSpecialRule
    (constructor (H := literal_engine) Samples.with_rule "45"
                 (OneRule (mkRule 2 (Some "DCS|"))))
    2 "M" = Normal true.
Proof.
  apply (blank_prefix_matches_every_material
           (constructor (H := literal_engine) Samples.with_rule "45"
                        (OneRule (mkRule 2 (Some "DCS|"))))
           (mkRule 2 (Some "DCS|")) "DCS|" "" 2 "M").
  - repeat constructor. simpl. eauto.
  - simpl. left. reflexivity.
  - reflexivity.
  - simpl. right. left. reflexivity.
  - reflexivity.
  - simpl. lia.
Defined.

(** ** The orchestrator: completion and row-wise results *)

Lemma resolve_rows_lookup p rows : forall st results st',
  resolve_rows p rows st = (Normal results, st') ->
  forall i r, rows !! i = Some r ->
    exists x, results !! i = Some x /\
              fst (resolve_row p r initial_state) = Normal x.
Proof.
  assert (Hagree : agree p p) by by repeat split.
  induction rows as [|r0 rows IH]; intros st results st'; simpl; unfold bind, ret.
  - by intros _ i r ?.
  - pose proof (resolve_row_agree p p r0 r0 st initial_state Hagree eq_refl) as Hrow.
    destruct (resolve_row p r0 st) as [[x0|e] s]; [|done].
    destruct (resolve_rows p rows s) as [[xs|e] s'] eqn:E; [|done].
    intros [= <- _] [|i] r Hr.
    + injection Hr as <-. exists x0. by rewrite <- Hrow.
    + by apply (IH _ _ _ E).
Qed.

Lemma commit_lookup rows : forall results i r x,
  rows !! i = Some r -> results !! i = Some x ->
  commit rows results !! i = Some (set_derived r (fst x) (snd x)).
Proof.
  induction rows as [|r0 rows IH]; intros [|[s u] results] [|i] r x Hr Hx;
    simpl in *; try done.
  - by injection Hr as <-; injection Hx as <-.
  - by apply IH.
Qed.

Lemma process_row_result p p' st st' i r :
  process p st = (Normal p', st') ->
  data p !! i = Some r ->
  exists sysCpn ttlUsage,
    fst (resolve_row p r initial_state) = Normal (sysCpn, ttlUsage) /\
    data p' !! i = Some (set_derived r sysCpn ttlUsage).
Proof.
  unfold process, bind, ret.
  destruct (resolve_rows p (data p) st) as [[results|e] s] eqn:E; [|done].
  intros [= <- _] Hr. simpl.
  destruct (resolve_rows_lookup p (data p) st results s E i r Hr) as ([sc tu] & Hx & Hres).
  exists sc, tu. split; [done|].
  by rewrite (commit_lookup (data p) results i r (sc, tu)).
Qed.

(** X5: what [process] returns when it completes. The rows come back in the
    same number and order with their input fields untouched; the fields fixed
    at construction are untouched; and the two columns written on a row are
    the pair that resolving that row alone, starting from an empty visited
    set, gives: no row's result depends on the rows processed before it. *)
Theorem process_resolves_rows_independently (p p' : Processor) (st st' : EngineState) :
  process p st = (Normal p', st') ->
  length (data p') = length (data p) /\
  map core (data p') = map core (data p) /\
  materialIndex p' = materialIndex p /\ lvSpecialRules p' = lvSpecialRules p /\
  pattern p' = pattern p /\ materialPattern p' = materialPattern p /\
  forall i r, data p !! i = Some r ->
    exists sysCpn ttlUsage,
      fst (resolve_row p r initial_state) = Normal (sysCpn, ttlUsage) /\
      data p' !! i = Some (set_derived r sysCpn ttlUsage).
Proof.
  intros Hproc.
  assert (Hrows := fun i r => process_row_result p p' st st' i r Hproc).
  revert Hproc. unfold process, bind, ret.
  destruct (resolve_rows p (data p) st) as [[results|e] s] eqn:E; [|done].
  intros [= <- _]. simpl.
  split; [apply commit_length|]. split; [apply commit_core|].
  by repeat split.
Qed.

Lemma process_resolves_rows_independently_witness :
  length (data (Samples.processed Samples.scenario_processor))
  = length (data Samples.scenario_processor) /\
  map core (data (Samples.processed Samples.scenario_processor))
  = map core (data Samples.scenario_processor) /\
  materialIndex (Samples.processed Samples.scenario_processor)
  = materialIndex Samples.scenario_processor /\
  lvSpecialRules (Samples.processed Samples.scenario_processor)
  = lvSpecialRules Samples.scenario_processor /\
  pattern (Samples.processed Samples.scenario_processor)
  = pattern Samples.scenario_processor /\
  materialPattern (Samples.processed Samples.scenario_processor)
  = materialPattern Samples.scenario_processor /\
  forall i r, data Samples.scenario_processor !! i = Some r ->
    exists sysCpn ttlUsage,
      fst (resolve_row Samples.scenario_processor r initial_state)
      = Normal (sysCpn, ttlUsage) /\
      data (Samples.processed Samples.scenario_processor) !! i
      = Some (set_derived r sysCpn ttlUsage).
Proof.
  apply (process_resolves_rows_independently Samples.scenario_processor
           (Samples.processed Samples.scenario_processor) initial_state
           (snd (process Samples.scenario_processor initial_state))).
  vm_compute. reflexivity.
Defined.

Lemma resolve_row_completes p row st :
  Forall (fun r => is_Some (rule_prefix r)) (rules_of (lvSpecialRules p)) ->
  exists x st', resolve_row p row st = (Normal x, st').
Proof.
  intros Hwell. unfold resolve_row, _traverseHierarchyUnified.
  rewrite (matchesLVSpecialRule_some_rule p (LV row) (Material row) Hwell).
  destruct (some_rule_spec (LV row) (Material row) _ Hwell) as (b & Hb & _).
  rewrite Hb. unfold_eff.
  repeat eff_step; eauto;
    match goal with
    | E : traverse ?n ?q ?m ?u ?d ?md ?ln ?s = (Thrown _, _) |- _ =>
        destruct (traverse_normal n q m u d md ln s) as (? & ? & Hn);
        rewrite Hn in E; discriminate E
    end.
Qed.

(** X6: with a configuration in which every rule has a prefix string,
    [process] never throws, whatever the table: it completes and returns a
    processor with as many rows as it had. *)
Theorem process_completes (p : Processor) (st : EngineState) :
  Forall (fun r => is_Some (rule_prefix r)) (rules_of (lvSpecialRules p)) ->
  exists p' st', process p st = (Normal p', st') /\
                 length (data p') = length (data p).
Proof.
  intros Hwell.
  assert (Hrows : forall rows s, exists results s',
            resolve_rows p rows s = (Normal results, s')).
  { induction rows as [|r rows IH]; intros s; simpl; unfold bind, ret; [eauto|].
    destruct (resolve_row_completes p r s Hwell) as (x & s1 & ->).
    destruct (IH s1) as (xs & s2 & ->). eauto. }
  destruct (Hrows (data p) st) as (results & s' & Hres).
  unfold process, bind, ret. rewrite Hres.
  eexists _, _. split; [done|]. simpl. apply commit_length.
Qed.

Lemma process_completes_witness :
  exists p' st',
    process (constructor (H := literal_engine) Samples.with_rule "45" Samples.dcs_rule)
            initial_state = (Normal p', st') /\
    length (data p')
    = length (data (constructor (H := literal_engine) Samples.with_rule "45"
                                Samples.dcs_rule)).
Proof.
  apply (process_completes
           (constructor (H := literal_engine) Samples.with_rule "45" Samples.dcs_rule)
           initial_state).
  repeat constructor. simpl. eauto.
Defined.

Lemma resolve_rows_throws p rows : forall st i row,
  rows !! i = Some row ->
  (forall s, fst (resolve_row p row s) = Thrown TypeError) ->
  fst (resolve_rows p rows st) = Thrown TypeError.
Proof.
  induction rows as [|r0 rows IH]; intros st [|i] row Hrow Hthrows;
    simpl in *; try done; unfold bind, ret.
  - injection Hrow as ->. specialize (Hthrows st).
    by destruct (resolve_row p row st) as [[x|e] s]; simpl in *; simplify_eq.
  - destruct (resolve_row p r0 st) as [[x|[]] s]; [|done].
    specialize (IH s i row Hrow Hthrows).
    by destruct (resolve_rows p rows s) as [[xs|e] s']; simpl in *; simplify_eq.
Qed.

(** X7: a rule object without a prefix string aborts the whole batch. The
    constructor throws on such a rule, so a processor can hold one only when
    the caller assigned it to [lvSpecialRules] after construction. When the
    rule checked first (the single rule, or the first of the array) has no
    prefix, and some row has a level above 1 and a material that does not
    match the pattern, [process] throws a [TypeError]: the rule check in the
    orchestrator is outside every [try], and no column is written. *)
Theorem process_aborts_on_rule_without_prefix (p : Processor) (st : EngineState)
  (rule : Rule) (i : nat) (row : Row) :
  (lvSpecialRules p = OneRule rule \/
   exists rest, lvSpecialRules p = RuleArray (rule :: rest)) ->
  rule_prefix rule = None ->
  data p !! i = Some row ->
  1 < LV row ->
  matchesPattern p (Material row) = false ->
  fst (process p st) = Thrown TypeError.
Proof.
  intros Hrules Hnone Hrow Hlv Hnomatch.
  assert (Hcheck : forall lv m, _matchesLVSpecialRule p lv m = Thrown TypeError).
  { intros lv m. unfold _matchesLVSpecialRule.
    destruct Hrules as [->|[rest ->]]; simpl; unfold _checkSingleRule;
      by rewrite Hnone. }
  assert (Hthrows : forall s, fst (resolve_row p row s) = Thrown TypeError).
  { intros s. unfold resolve_row.
    destruct (Z.leb_spec (LV row) 1); [lia|].
    rewrite Hnomatch, Hcheck. done. }
  pose proof (resolve_rows_throws p (data p) st i row Hrow Hthrows) as Hall.
  unfold process, bind.
  by destruct (resolve_rows p (data p) st) as [[xs|e] s]; simpl in *; simplify_eq.
Qed.

Lemma process_aborts_on_rule_without_prefix_witness :
  fst (process Samples.misconfigured_processor initial_state) = Thrown TypeError.
Proof.
  apply (process_aborts_on_rule_without_prefix Samples.misconfigured_processor
           initial_state (mkRule 2 None) 2%nat
           (mkRow 3 3 "M" "DC02-7" (Some 3%float) None None)).
  - left. reflexivity.
  - reflexivity.
  - reflexivity.
  - simpl. lia.
  - vm_compute. reflexivity.
Defined.

(** X8: rows at level 1 or below are their own terminal: after [process]
    such a row carries its own material as [SYS_CPN] and its own unit usage
    (1 when the usage is absent, zero or not a number) as [Ttl. Usage]. *)
Theorem root_rows_resolve_to_themselves (p p' : Processor) (st st' : EngineState)
  (i : nat) (r : Row) :
  process p st = (Normal p', st') ->
  data p !! i = Some r ->
  LV r <= 1 ->
  data p' !! i = Some (set_derived r (Material r) (unit_usage r)).
Proof.
  intros Hproc Hr Hlv.
  destruct (process_row_result p p' st st' i r Hproc Hr) as (sc & tu & Hres & ->).
  unfold resolve_row in Hres.
  destruct (Z.leb_spec (LV r) 1); [|lia].
  by injection Hres as <- <-.
Qed.

Lemma root_rows_resolve_to_themselves_witness :
  data (Samples.processed Samples.scenario_processor) !! 0%nat
  = Some (set_derived (mkRow 1 1 "ROOT" "" (Some 1%float) None None)
            (Material (mkRow 1 1 "ROOT" "" (Some 1%float) None None))
            (unit_usage (mkRow 1 1 "ROOT" "" (Some 1%float) None None))).
Proof.
  apply (root_rows_resolve_to_themselves Samples.scenario_processor
           (Samples.processed Samples.scenario_processor) initial_state
           (snd (process Samples.scenario_processor initial_state)) 0%nat
           (mkRow 1 1 "ROOT" "" (Some 1%float) None None)).
  - vm_compute. reflexivity.
  - reflexivity.
  - simpl. lia.
Defined.

(** ** Where a terminal comes from *)

Lemma found_row_facts p m b n r :
  well_formed p ->
  _findMaterialBeforeLN p m b = Normal (Some n) ->
  data p !! n = Some r ->
  trim (Material r) = m /\ LN r < b /\ or_int (LN r) 0 = LN r /\
  LN r = Z.of_nat n + 1.
Proof.
  intros Hwf Hfind Hr.
  destruct (find_below p m b (Some n) Hwf Hfind n eq_refl) as (r' & Hr' & Hm & Hlt).
  simpl in *. rewrite Hr in Hr'. injection Hr' as <-.
  repeat split; try done.
  - by apply (well_formed_or_int p n r).
  - by apply (proj1 Hwf).
Qed.

Lemma traverse_body_terminal self p startMaterial initialUsage depth maxDepth currentLN :
  well_formed p ->
  (forall m u d md ln, terminal_ok p (self m u d md ln) m ln) ->
  terminal_ok p (traverse_body self p startMaterial initialUsage depth maxDepth currentLN)
              startMaterial currentLN.
Proof.
  intros Hwf Hself st. unfold_eff.
  repeat eff_step.
  all: repeat match goal with
       | Hf : _findMaterialBeforeLN ?q ?m ?b = Normal (Some ?n),
         Hr : data ?q !! ?n = Some ?r |- _ =>
           let F := fresh "F" in
           pose proof (found_row_facts q m b n r Hwf Hf Hr) as F;
           destruct F as (? & ? & ? & ?); clear Hf
       end.
  all: try match goal with
       | E : ?f ?m ?u ?d ?md ?ln ?s = (_, _) |- _ =>
           let t := fresh "t" in let u' := fresh "u" in let s' := fresh "s" in
           let Hs := fresh "Hs" in let Ht := fresh "Ht" in
           destruct (Hself m u d md ln s) as (t & u' & s' & Hs & Ht);
           rewrite Hs in E; simplify_eq
       end.
  all: try by (eexists _, _, _; split; [reflexivity|by left]).
  all: eexists _, _, _; (split; [reflexivity|right]).
  all: match goal with
       | Ht : _ \/ names_row_below _ _ ?s |- names_row_below _ _ ?s =>
           destruct Ht as [->|(j & rj & Hj & Hlt & Hor)];
           [ match goal with
             | Hr0 : data _ !! ?n0 = Some ?r0,
               Hm : trim (Material ?r0) = ?x |- names_row_below _ _ ?x =>
                 exists n0, r0; split; [done|split; [lia|by right]]
             end
           | exists j, rj; split; [done|split; [lia|done]] ]
       | Hr0 : data _ !! ?n0 = Some ?r0 |- names_row_below _ _ (Material ?r0) =>
           exists n0, r0; split; [done|split; [lia|by left]]
       end.
Qed.

Lemma traverse_terminal budget p :
  well_formed p ->
  forall m u d md ln, terminal_ok p (traverse budget p m u d md ln) m ln.
Proof.
  intros Hwf. induction budget as [|budget IH]; intros m u d md ln st; simpl.
  - destruct (d >? md); eexists _, _, _; (split; [reflexivity|by left]).
  - destruct (d >? md); [eexists _, _, _; (split; [reflexivity|by left])|].
    by apply traverse_body_terminal.
Qed.

Lemma resolve_row_provenance `{RegExpEngine} p i r sc tu :
  well_formed p ->
  data p !! i = Some r ->
  fst (resolve_row p r initial_state) = Normal (sc, tu) ->
    (sc = Material r \/ sc = trim (Part_Number r) \/
     exists j rj, (j < i)%nat /\ data p !! j = Some rj /\
                  (sc = Material rj \/ sc = trim (Material rj))) /\
    (sc = "" -> Material r = "").
Proof.
  intros Hwf Hr Hres.
  assert (Hbelow : forall t, names_row_below p (or_int (LN r) 0) t ->
            exists j rj, (j < i)%nat /\ data p !! j = Some rj /\
                         (t = Material rj \/ t = trim (Material rj))).
  { intros t (j & rj & Hj & Hlt & Hor). exists j, rj.
    rewrite (well_formed_or_int p i r Hwf Hr) in Hlt.
    rewrite (proj1 Hwf j rj Hj), (proj1 Hwf i r Hr) in Hlt.
    split; [lia|done]. }
  unfold resolve_row, _traverseHierarchyUnified in Hres. unfold_eff.
  repeat match type of Hres with
  | context [match ?x with _ => _ end] =>
      lazymatch x with
      | context [match _ with _ => _ end] => fail
      | _ => destruct x eqn:?
      end
  | _ => progress cbv beta iota zeta in Hres
  end; simpl in Hres; simplify_eq; try (split; [by left|done]).
  - split; [by right; left|]. intros Hempty.
    match goal with
    | Hm : matchesPattern _ (trim _) = true |- _ =>
        rewrite Hempty in Hm; unfold matchesPattern in Hm; simpl in Hm;
        discriminate Hm
    end.
  - match goal with
    | E : traverse ?n _ ?m ?u ?d ?md ?ln ?s = (_, _) |- _ =>
        destruct (traverse_terminal n p Hwf m u d md ln s) as (t & u' & s' & Hs & Ht);
        rewrite Hs in E; simplify_eq
    end.
    split.
    + destruct Ht as [->|Ht]; [by right; left|]. right; right. by apply Hbelow.
    + intros ->. done.
Qed.

(** X9: where [SYS_CPN] comes from. After [process] on a constructed
    processor, the [SYS_CPN] of a row is the row's own material, or its
    trimmed parent reference, or the material code (as written or trimmed) of
    a row strictly above it in the table; and it is empty only when the
    row's own material is empty. *)
Theorem sysCpn_names_row_parent_or_earlier_row `{RegExpEngine} (input : list Row)
  (pattern : string) (rules : SpecialRules) (p' : Processor) (st st' : EngineState)
  (i : nat) (r : Row) :
  let p := constructor input pattern rules in
  process p st = (Normal p', st') ->
  data p !! i = Some r ->
  exists sysCpn ttlUsage,
    data p' !! i = Some (set_derived r sysCpn ttlUsage) /\
    (sysCpn = Material r \/ sysCpn = trim (Part_Number r) \/
     exists j rj, (j < i)%nat /\ data p !! j = Some rj /\
                  (sysCpn = Material rj \/ sysCpn = trim (Material rj))) /\
    (sysCpn = "" -> Material r = "").
Proof.
  intros p Hproc Hr.
  assert (Hwf : well_formed p) by apply constructor_well_formed.
  destruct (process_row_result p p' st st' i r Hproc Hr) as (sc & tu & Hres & Hrow).
  exists sc, tu. split; [done|].
  by apply (resolve_row_provenance p i r sc tu).
Qed.

Lemma sysCpn_names_row_parent_or_earlier_row_witness :
  exists sysCpn ttlUsage,
    data (Samples.processed Samples.reused_processor) !! 5%nat
    = Some (set_derived (mkRow 4 6 "Z" "P" (Some 6%float) None None) sysCpn ttlUsage) /\
    (sysCpn = Material (mkRow 4 6 "Z" "P" (Some 6%float) None None) \/
     sysCpn = trim (Part_Number (mkRow 4 6 "Z" "P" (Some 6%float) None None)) \/
     exists j rj, (j < 5)%nat /\ data Samples.reused_processor !! j = Some rj /\
                  (sysCpn = Material rj \/ sysCpn = trim (Material rj))) /\
    (sysCpn = "" -> Material (mkRow 4 6 "Z" "P" (Some 6%float) None None) = "").
Proof.
  apply (sysCpn_names_row_parent_or_earlier_row (H := literal_engine)
           Samples.reused "45" NoRules
           (Samples.processed Samples.reused_processor) initial_state
           (snd (process Samples.reused_processor initial_state)) 5%nat
           (mkRow 4 6 "Z" "P" (Some 6%float) None None)).
  - vm_compute. reflexivity.
  - reflexivity.
Defined.

(** ** Rows that are their own terminal *)

Lemma absent_above_not_found p i r m :
  well_formed p ->
  data p !! i = Some r ->
  (forall j rj, (j < i)%nat -> data p !! j = Some rj -> trim (Material rj) <> m) ->
  _findMaterialBeforeLN p m (or_int (LN r) 0) = Normal None.
Proof.
  intros Hwf Hr Habsent.
  destruct (find_spec p m (or_int (LN r) 0) Hwf) as ([n|] & Hres & Hspec); [|done].
  destruct Hspec as (rn & Hn & Hm & _ & Hlt & _).
  rewrite (well_formed_or_int p i r Hwf Hr) in Hlt.
  rewrite (proj1 Hwf n rn Hn), (proj1 Hwf i r Hr) in Hlt.
  destruct (Habsent n rn ltac:(lia) Hn Hm).
Qed.

Lemma traverse_absent_above p i r m u st :
  well_formed p ->
  data p !! i = Some r ->
  (forall j rj, (j < i)%nat -> data p !! j = Some rj -> trim (Material rj) <> m) ->
  fst (_traverseHierarchyUnified p m u 0 20 (or_int (LN r) 0) st) = Normal (m, u).
Proof.
  intros Hwf Hr Habsent.
  rewrite traverse_unfold by lia.
  unfold traverse_body. unfold_eff. unfold find_before.
  by rewrite (absent_above_not_found p i r m Hwf Hr Habsent).
Qed.

Lemma resolve_row_terminal `{RegExpEngine} p i r sc tu :
  well_formed p ->
  data p !! i = Some r ->
  1 < LV r ->
  matchesPattern p (Material r) = true \/
  _matchesLVSpecialRule p (LV r) (Material r) = Normal true ->
  fst (resolve_row p r initial_state) = Normal (sc, tu) ->
  sc = Material r /\
  ((forall j rj, (j < i)%nat -> data p !! j = Some rj ->
                 trim (Material rj) <> Material r) ->
   tu = unit_usage r).
Proof.
  intros Hwf Hr Hlv Hterm Hres.
  unfold resolve_row in Hres.
  destruct (Z.leb_spec (LV r) 1); [lia|].
  assert (Hcase : fst ((visited_clear ;;;
             x <- _traverseHierarchyUnified p (Material r) (unit_usage r) 0 20
                    (or_int (LN r) 0) ;;
             ret (Material r, snd x))%eff initial_state) = Normal (sc, tu)).
  { destruct (matchesPattern p (Material r)); [done|].
    destruct Hterm as [|Hsp]; [done|].
    revert Hres. unfold bind at 1, lift. by rewrite Hsp. }
  clear Hres. revert Hcase. unfold_eff.
  match goal with
  | |- context [_traverseHierarchyUnified ?q ?m ?u ?d ?md ?ln ?s] =>
      pose proof (fun Hf => traverse_absent_above q i r m u s Hwf Hr Hf) as Hfst;
      destruct (_traverseHierarchyUnified q m u d md ln s) as [[[t u']|e] s'] eqn:E
  end; simpl; [|done].
  intros [= <- <-]. split; [done|]. intros Hf. specialize (Hfst Hf).
  simpl in Hfst. congruence.
Qed.

Lemma resolve_row_terminal_usage `{RegExpEngine} p r sc tu :
  1 < LV r ->
  matchesPattern p (Material r) = true \/
  _matchesLVSpecialRule p (LV r) (Material r) = Normal true ->
  fst (resolve_row p r initial_state) = Normal (sc, tu) ->
  exists t,
    fst (_traverseHierarchyUnified p (Material r) (unit_usage r) 0 20
           (or_int (LN r) 0) initial_state) = Normal (t, tu).
Proof.
  intros Hlv Hterm Hres.
  unfold resolve_row in Hres.
  destruct (Z.leb_spec (LV r) 1); [lia|].
  assert (Hcase : fst ((visited_clear ;;;
             x <- _traverseHierarchyUnified p (Material r) (unit_usage r) 0 20
                    (or_int (LN r) 0) ;;
             ret (Material r, snd x))%eff initial_state) = Normal (sc, tu)).
  { destruct (matchesPattern p (Material r)); [done|].
    destruct Hterm as [|Hsp]; [done|].
    revert Hres. unfold bind at 1, lift. by rewrite Hsp. }
  clear Hres. revert Hcase. unfold_eff. cbv beta iota zeta.
  change (mkState ∅ (lookups initial_state)) with initial_state.
  destruct (_traverseHierarchyUnified p (Material r) (unit_usage r) 0 20
              (or_int (LN r) 0) initial_state) as [[[t u']|e] s']; simpl; [|done].
  intros [= <- <-]. by exists t.
Qed.

Lemma nearest_above_found p m i j r :
  well_formed p ->
  data p !! i = Some r ->
  nearest_above p m i j ->
  _findMaterialBeforeLN p m (or_int (LN r) 0) = Normal (Some j).
Proof.
  intros Hwf Hr (Hji & Hne & (rj & Hj & Hm) & Hnearest).
  rewrite (well_formed_or_int p i r Hwf Hr), (proj1 Hwf i r Hr).
  destruct (find_spec p m (Z.of_nat i + 1) Hwf) as ([n|] & -> & Hspec).
  - destruct Hspec as (rn & Hn & Hmn & _ & Hlt & Hmax).
    rewrite (proj1 Hwf n rn Hn) in Hlt.
    assert (Hjn : (j <= n)%nat).
    { apply (Hmax j rj Hj Hm). rewrite (proj1 Hwf j rj Hj). lia. }
    destruct (decide (n = j)) as [->|Hneq]; [done|].
    destruct (Hnearest n rn ltac:(lia) Hn Hmn).
  - destruct (Hspec j rj Hj Hm Hne). rewrite (proj1 Hwf j rj Hj). lia.
Qed.

Lemma or_int_level_pos lv : 0 < or_int lv (-1) <-> 0 < lv.
Proof. unfold or_int. destruct (Z.eqb_spec lv 0); lia. Qed.

Lemma traverse_stops_at_occurrence p m u d md ln st j rj :
  d <= md ->
  _findMaterialBeforeLN p m ln = Normal (Some j) ->
  data p !! j = Some rj ->
  LV rj <= 0 \/ Part_Number rj = "" \/
  _findMaterialBeforeLN p (trim (Part_Number rj)) (or_int (LN rj) 0) = Normal None ->
  fst (_traverseHierarchyUnified p m u d md ln st) = Normal (m, u).
Proof.
  intros Hd Hfind Hrow Hstop.
  rewrite traverse_unfold by done. unfold_eff.
  run_with ltac:(first [ rewrite Hfind | rewrite Hrow ]).
  destruct (bool_decide (m ∈ visited st)); [done|].
  run_with fail.
  destruct ((or_int (LV rj) (-1) <=? 0) || String.eqb (Part_Number rj) "") eqn:Hgo;
    [done|].
  apply orb_false_elim in Hgo as [Hlv Hpn].
  apply Z.leb_gt in Hlv. apply (proj1 (or_int_level_pos (LV rj))) in Hlv.
  apply String.eqb_neq in Hpn.
  destruct Hstop as [?|[?|Hnone]]; [lia|done|].
  run_with ltac:(rewrite Hnone). done.
Qed.

Lemma traverse_continues_at_parent p m u d md ln st j rj k rk :
  d <= md ->
  _findMaterialBeforeLN p m ln = Normal (Some j) ->
  data p !! j = Some rj ->
  m ∉ visited st ->
  0 < LV rj -> Part_Number rj <> "" ->
  _findMaterialBeforeLN p (trim (Part_Number rj)) (or_int (LN rj) 0) = Normal (Some k) ->
  data p !! k = Some rk ->
  (matchesPattern p (Material rk) = false ->
   _matchesLVSpecialRule p (or_int (LV rk) (-1)) (Material rk) = Normal true ->
   fst (_traverseHierarchyUnified p m u d md ln st)
   = Normal (Material rk, (u * unit_usage rk)%float)) /\
  (matchesPattern p (Material rk) = true \/
   _matchesLVSpecialRule p (or_int (LV rk) (-1)) (Material rk) = Normal false ->
   exists t x,
     fst (_traverseHierarchyUnified p m u d md ln st) = Normal (t, snd x) /\
     forall s, visited s = {[m]} ∪ visited st ->
       fst (_traverseHierarchyUnified p (trim (Part_Number rj))
              (u * unit_usage rk)%float (d + 1) md (or_int (LN rj) 0) s) = Normal x).
Proof.
  intros Hd Hfind Hrow Hfresh Hlv Hpn Hpar Hprow.
  assert (Hseen : bool_decide (m ∈ visited st) = false)
    by by apply bool_decide_eq_false.
  assert (Hgo : (or_int (LV rj) (-1) <=? 0) || String.eqb (Part_Number rj) "" = false).
  { apply orb_false_intro; [by apply Z.leb_gt, or_int_level_pos|by apply String.eqb_neq]. }
  split.
  - intros Hnomatch Hspecial.
    rewrite traverse_unfold by done. unfold_eff.
    run_with ltac:(first [ rewrite Hfind | rewrite Hrow | rewrite Hseen | rewrite Hgo
                         | rewrite Hpar | rewrite Hprow | rewrite Hnomatch
                         | rewrite Hspecial ]).
    done.
  - intros Hcont.
    assert (Hany : exists x, forall s, visited s = {[m]} ∪ visited st ->
              fst (_traverseHierarchyUnified p (trim (Part_Number rj))
                     (u * unit_usage rk)%float (d + 1) md (or_int (LN rj) 0) s)
              = Normal x).
    { destruct (traverse_normal (Z.to_nat (md - (d + 1) + 1)) p (trim (Part_Number rj))
                  (u * unit_usage rk)%float (d + 1) md (or_int (LN rj) 0)
                  (mkState ({[m]} ∪ visited st) [])) as (x & s' & Hx).
      exists x. intros s Hs. unfold _traverseHierarchyUnified.
      rewrite (traverse_agree (Z.to_nat (md - (d + 1) + 1)) p p
                 ltac:(by repeat split) (trim (Part_Number rj))
                 (u * unit_usage rk)%float (d + 1) md (or_int (LN rj) 0)
                 s (mkState ({[m]} ∪ visited st) []) Hs).
      by rewrite Hx. }
    destruct Hany as ([up final] & Hany).
    exists (if matchesPattern p (Material rk)
            then if _is43Pattern (Material rk)
                 then if _is45Pattern up then up else Material rk
                 else Material rk
            else up), (up, final).
    split; [|done].
    rewrite traverse_unfold by done. unfold_eff.
    run_with ltac:(first [ rewrite Hfind | rewrite Hrow | rewrite Hseen | rewrite Hgo
                         | rewrite Hpar | rewrite Hprow ]).
    destruct (matchesPattern p (Material rk)) eqn:Hmatch;
      [destruct (_is43Pattern (Material rk))
      |destruct Hcont as [|Hsp]; [done|]; rewrite Hsp];
      run_with fail.
    all: match goal with
         | |- context [_traverseHierarchyUnified ?q ?m' ?u' ?d' ?md' ?ln' ?s0] =>
             let Hs := fresh "Hs" in
             pose proof (Hany s0 eq_refl) as Hs;
             destruct (_traverseHierarchyUnified q m' u' d' md' ln' s0) as [c s1];
             simpl in Hs; subst c
         end.
    all: run_with fail.
    + by destruct (_is45Pattern up).
    + done.
    + done.
Qed.

Lemma blank_not_found p b :
  well_formed p -> _findMaterialBeforeLN p "" b = Normal None.
Proof.
  intros Hwf.
  destruct (find_spec p "" b Hwf) as ([n|] & Hres & Hspec); [|done].
  by destruct Hspec as (rn & _ & _ & Hne & _).
Qed.

(** X10: a row at a level above 1 whose own material matches the primary
    pattern, or satisfies the special rule, keeps its own material as
    [SYS_CPN]. Its [Ttl. Usage] is the usage returned by the traversal that
    [process] starts from the row's own code with the row's own unit usage,
    and that traversal reads the nearest row above carrying the same code,
    never the row itself. With no such row (or a blank code) the
    [Ttl. Usage] is the row's own unit usage. With such a row [j], the
    parent reference followed is the one of row [j], not the row's own: the
    [Ttl. Usage] is the row's own unit usage when row [j] is at level 0 or
    below, or its trimmed parent reference is blank or carried by no row
    above [j]; otherwise, with [k] the nearest row above [j] carrying that
    reference, it is the row's unit usage times the unit usage of row [k]
    when row [k] is a special-rule terminal, and else the usage that the
    traversal continued from row [j]'s parent reference returns for that
    product. *)
Theorem terminal_rows_keep_their_material `{RegExpEngine} (input : list Row)
  (pattern : string) (rules : SpecialRules) (p' : Processor) (st st' : EngineState)
  (i : nat) (r : Row) :
  let p := constructor input pattern rules in
  process p st = (Normal p', st') ->
  data p !! i = Some r ->
  1 < LV r ->
  matchesPattern p (Material r) = true \/
  _matchesLVSpecialRule p (LV r) (Material r) = Normal true ->
  exists terminal ttlUsage,
    data p' !! i = Some (set_derived r (Material r) ttlUsage) /\
    fst (_traverseHierarchyUnified p (Material r) (unit_usage r) 0 20 (LN r)
           initial_state) = Normal (terminal, ttlUsage) /\
    (Material r = "" \/
     (forall j rj, (j < i)%nat -> data p !! j = Some rj ->
                   trim (Material rj) <> Material r) ->
     ttlUsage = unit_usage r) /\
    (forall j rj, nearest_above p (Material r) i j -> data p !! j = Some rj ->
       (LV rj <= 0 \/ trim (Part_Number rj) = "" \/
        (forall k rk, (k < j)%nat -> data p !! k = Some rk ->
                      trim (Material rk) <> trim (Part_Number rj)) ->
        ttlUsage = unit_usage r) /\
       (forall k rk,
          0 < LV rj ->
          nearest_above p (trim (Part_Number rj)) j k -> data p !! k = Some rk ->
          (matchesPattern p (Material rk) = false ->
           _matchesLVSpecialRule p (or_int (LV rk) (-1)) (Material rk) = Normal true ->
           ttlUsage = (unit_usage r * unit_usage rk)%float) /\
          (matchesPattern p (Material rk) = true \/
           _matchesLVSpecialRule p (or_int (LV rk) (-1)) (Material rk) = Normal false ->
           exists x,
             ttlUsage = snd x /\
             forall s, visited s = {[Material r]} ->
               fst (_traverseHierarchyUnified p (trim (Part_Number rj))
                      (unit_usage r * unit_usage rk)%float 1 20 (LN rj) s)
               = Normal x))).
Proof.
  intros p Hproc Hr Hlv Hterm.
  assert (Hwf : well_formed p) by apply constructor_well_formed.
  destruct (process_row_result p p' st st' i r Hproc Hr) as (sc & tu & Hres & Hrow).
  destruct (resolve_row_terminal p i r sc tu Hwf Hr Hlv Hterm Hres) as [-> _].
  destruct (resolve_row_terminal_usage p r (Material r) tu Hlv Hterm Hres) as (t & Htrav).
  exists t, tu. split; [done|].
  pose proof (well_formed_or_int p i r Hwf Hr) as HLN.
  split; [by rewrite <- HLN|]. split.
  - intros Habsent.
    assert (Hnone : _findMaterialBeforeLN p (Material r) (or_int (LN r) 0) = Normal None).
    { destruct Habsent as [->|Habsent]; [by apply blank_not_found|].
      by apply (absent_above_not_found p i r). }
    revert Htrav. rewrite traverse_unfold by lia. unfold_eff.
    run_with ltac:(rewrite Hnone). by intros [= _ <-].
  - intros j rj Hnear Hj.
    pose proof (nearest_above_found p (Material r) i j r Hwf Hr Hnear) as Hfind.
    pose proof (well_formed_or_int p j rj Hwf Hj) as HLNj.
    split.
    + intros Hstop.
      assert (Hstop' : LV rj <= 0 \/ Part_Number rj = "" \/
                _findMaterialBeforeLN p (trim (Part_Number rj)) (or_int (LN rj) 0)
                = Normal None).
      { destruct Hstop as [?|[Hblank|Habsent]]; [by left|right; right..].
        - rewrite Hblank. by apply blank_not_found.
        - by apply (absent_above_not_found p j rj). }
      rewrite (traverse_stops_at_occurrence p (Material r) (unit_usage r) 0 20
                 (or_int (LN r) 0) initial_state j rj ltac:(lia) Hfind Hj Hstop')
        in Htrav.
      by injection Htrav as _ <-.
    + intros k rk Hlvj Hnear' Hk.
      pose proof (nearest_above_found p (trim (Part_Number rj)) j k rj Hwf Hj Hnear')
        as Hfind'.
      assert (Hpn : Part_Number rj <> "").
      { intros Hpn. destruct Hnear' as (_ & Hne & _). by rewrite Hpn in Hne. }
      destruct (traverse_continues_at_parent p (Material r) (unit_usage r) 0 20
                  (or_int (LN r) 0) initial_state j rj k rk ltac:(lia) Hfind Hj
                  ltac:(simpl; apply not_elem_of_empty) Hlvj Hpn Hfind' Hk)
        as [Hspecial Hcont].
      split.
      * intros Hnomatch Hsp. rewrite (Hspecial Hnomatch Hsp) in Htrav.
        by injection Htrav as _ <-.
      * intros Hc. destruct (Hcont Hc) as (t' & x & Hx & Hany).
        exists x. split; [rewrite Hx in Htrav; by injection Htrav as _ <-|].
        intros s Hs. rewrite <- HLNj. apply Hany.
        rewrite Hs. simpl. by rewrite union_empty_r_L.
Qed.

Lemma terminal_rows_keep_their_material_witness :
  exists terminal ttlUsage,
    data (Samples.processed Samples.duplicated_processor) !! 3%nat
    = Some (set_derived (mkRow 2 4 "45A" "ROOT" (Some 5%float) None None)
              (Material (mkRow 2 4 "45A" "ROOT" (Some 5%float) None None)) ttlUsage) /\
    fst (_traverseHierarchyUnified Samples.duplicated_processor
           (Material (mkRow 2 4 "45A" "ROOT" (Some 5%float) None None))
           (unit_usage (mkRow 2 4 "45A" "ROOT" (Some 5%float) None None)) 0 20
           (LN (mkRow 2 4 "45A" "ROOT" (Some 5%float) None None))
           initial_state) = Normal (terminal, ttlUsage) /\
    (Material (mkRow 2 4 "45A" "ROOT" (Some 5%float) None None) = "" \/
     (forall j rj, (j < 3)%nat -> data Samples.duplicated_processor !! j = Some rj ->
                   trim (Material rj)
                   <> Material (mkRow 2 4 "45A" "ROOT" (Some 5%float) None None)) ->
     ttlUsage = unit_usage (mkRow 2 4 "45A" "ROOT" (Some 5%float) None None)) /\
    (forall j rj,
       nearest_above Samples.duplicated_processor
         (Material (mkRow 2 4 "45A" "ROOT" (Some 5%float) None None)) 3 j ->
       data Samples.duplicated_processor !! j = Some rj ->
       (LV rj <= 0 \/ trim (Part_Number rj) = "" \/
        (forall k rk, (k < j)%nat -> data Samples.duplicated_processor !! k = Some rk ->
                      trim (Material rk) <> trim (Part_Number rj)) ->
        ttlUsage = unit_usage (mkRow 2 4 "45A" "ROOT" (Some 5%float) None None)) /\
       (forall k rk,
          0 < LV rj ->
          nearest_above Samples.duplicated_processor (trim (Part_Number rj)) j k ->
          data Samples.duplicated_processor !! k = Some rk ->
          (matchesPattern Samples.duplicated_processor (Material rk) = false ->
           _matchesLVSpecialRule Samples.duplicated_processor (or_int (LV rk) (-1))
             (Material rk) = Normal true ->
           ttlUsage
           = (unit_usage (mkRow 2 4 "45A" "ROOT" (Some 5%float) None None)
              * unit_usage rk)%float) /\
          (matchesPattern Samples.duplicated_processor (Material rk) = true \/
           _matchesLVSpecialRule Samples.duplicated_processor (or_int (LV rk) (-1))
             (Material rk) = Normal false ->
           exists x,
             ttlUsage = snd x /\
             forall s,
               visited s = {[Material (mkRow 2 4 "45A" "ROOT" (Some 5%float) None None)]} ->
               fst (_traverseHierarchyUnified Samples.duplicated_processor
                      (trim (Part_Number rj))
                      (unit_usage (mkRow 2 4 "45A" "ROOT" (Some 5%float) None None)
                       * unit_usage rk)%float 1 20 (LN rj) s)
               = Normal x))).
Proof.
  apply (terminal_rows_keep_their_material (H := literal_engine)
           Samples.duplicated "45" NoRules
           (Samples.processed Samples.duplicated_processor) initial_state
           (snd (process Samples.duplicated_processor initial_state)) 3%nat
           (mkRow 2 4 "45A" "ROOT" (Some 5%float) None None)).
  - vm_compute. reflexivity.
  - reflexivity.
  - simpl. lia.
  - left. vm_compute. reflexivity.
Defined.

(** The duplicated table as resolved: the second 45A, directly under ROOT
    with usage 5, gets 15 = 5 * 3, the usage of Q entering through the first
    45A, which is listed under Q. *)
Example duplicated_as_resolved :
  Samples.resolved Samples.duplicated_processor
  = Some [ (Some "ROOT", Some 1); (Some "ROOT", Some 3); (Some "45A", Some 2);
           (Some "45A", Some 15) ]%float.
Proof. vm_compute. reflexivity. Qed.

Lemma process_length p p' st st' :
  process p st = (Normal p', st') -> length (data p') = length (data p).
Proof.
  unfold process, bind, ret.
  destruct (resolve_rows p (data p) st) as [[results|e] s]; [|done].
  intros [= <- _]. apply commit_length.
Qed.

(** ** Appending rows to the table *)

Lemma reindex_from_app rows1 : forall rows2 s,
  reindex_from s (rows1 ++ rows2)
  = (reindex_from s rows1 ++ reindex_from (s + Z.of_nat (length rows1)) rows2)%list.
Proof.
  induction rows1 as [|r rows1 IH]; intros rows2 s; simpl.
  - by rewrite Z.add_0_r.
  - rewrite IH. do 3 f_equal. lia.
Qed.

Lemma constructor_extends `{RegExpEngine} input extra pattern rules :
  extends_table (constructor input pattern rules)
                (constructor (input ++ extra) pattern rules).
Proof.
  split; [|done]. simpl. unfold _reindexLN, json_clone.
  rewrite map_app, reindex_from_app. eauto.
Qed.

Lemma row_prefix p1 p2 i r :
  extends_table p1 p2 -> data p1 !! i = Some r -> data p2 !! i = Some r.
Proof. intros [[more ->] _] Hr. by apply lookup_app_l_Some. Qed.

Lemma find_prefix p1 p2 m b :
  well_formed p1 -> well_formed p2 -> extends_table p1 p2 ->
  b <= Z.of_nat (length (data p1)) + 1 ->
  _findMaterialBeforeLN p2 m b = _findMaterialBeforeLN p1 m b.
Proof.
  intros Hwf1 Hwf2 Hext Hb.
  destruct (find_spec p1 m b Hwf1) as (res1 & -> & Hspec1).
  destruct (find_spec p2 m b Hwf2) as (res2 & -> & Hspec2).
  f_equal.
  assert (Hback : forall j r, data p2 !! j = Some r -> LN r < b -> data p1 !! j = Some r).
  { intros j r Hj Hlt. rewrite (proj1 Hwf2 j r Hj) in Hlt.
    destruct Hext as [[more Hmore] _]. rewrite Hmore in Hj.
    rewrite lookup_app_l in Hj by lia. done. }
  destruct res1 as [i1|], res2 as [i2|]; try done.
  - destruct Hspec1 as (r1 & Hr1 & Hm1 & _ & Hlt1 & Hmax1).
    destruct Hspec2 as (r2 & Hr2 & Hm2 & _ & Hlt2 & Hmax2).
    f_equal. apply Nat.le_antisymm.
    + apply (Hmax1 i2 r2); [by apply Hback|done..].
    + apply (Hmax2 i1 r1); [by apply (row_prefix p1 p2)|done..].
  - destruct Hspec1 as (r1 & Hr1 & Hm1 & Hne & Hlt1 & _).
    destruct (Hspec2 i1 r1 (row_prefix p1 p2 i1 r1 Hext Hr1) Hm1 Hne Hlt1).
  - destruct Hspec2 as (r2 & Hr2 & Hm2 & Hne & Hlt2 & _).
    destruct (Hspec1 i2 r2 (Hback i2 r2 Hr2 Hlt2) Hm2 Hne Hlt2).
Qed.

Lemma found_row_prefix p1 p2 m b n :
  well_formed p1 -> extends_table p1 p2 ->
  _findMaterialBeforeLN p1 m b = Normal (Some n) ->
  data p2 !! n = data p1 !! n.
Proof.
  intros Hwf Hext Hf.
  destruct (find_below p1 m b (Some n) Hwf Hf n eq_refl) as (r & Hr & _).
  simpl in Hr. rewrite Hr. by apply (row_prefix p1 p2).
Qed.

Lemma matchesPattern_prefix p1 p2 s :
  extends_table p1 p2 -> matchesPattern p2 s = matchesPattern p1 s.
Proof. intros (_ & _ & Hpat). unfold matchesPattern. by rewrite Hpat. Qed.

Lemma special_prefix p1 p2 lv s :
  extends_table p1 p2 -> _matchesLVSpecialRule p2 lv s = _matchesLVSpecialRule p1 lv s.
Proof. intros (_ & Hrules & _). unfold _matchesLVSpecialRule. by rewrite Hrules. Qed.

Ltac bound_below Hwf :=
  repeat match goal with
  | Hf : _findMaterialBeforeLN ?q ?m ?b = Normal (Some ?n),
    Hr : data ?q !! ?n = Some ?r |- _ =>
      destruct (found_row_facts q m b n r Hwf Hf Hr) as (? & ? & ? & ?); clear Hf
  end; lia.

Lemma traverse_body_prefix self1 self2 p1 p2 startMaterial initialUsage
    depth maxDepth currentLN st :
  well_formed p1 -> well_formed p2 -> extends_table p1 p2 ->
  currentLN <= Z.of_nat (length (data p1)) + 1 ->
  (forall m u d md ln s, ln <= Z.of_nat (length (data p1)) + 1 ->
     self2 m u d md ln s = self1 m u d md ln s) ->
  traverse_body self2 p2 startMaterial initialUsage depth maxDepth currentLN st
  = traverse_body self1 p1 startMaterial initialUsage depth maxDepth currentLN st.
Proof.
  intros Hwf1 Hwf2 Hext Hln Hself. unfold_eff.
  repeat first
    [ rewrite (find_prefix p1 p2) by (try done; bound_below Hwf1)
    | match goal with
      | Hf : _findMaterialBeforeLN p1 ?m ?b = Normal (Some ?n)
        |- context [data p2 !! ?n] =>
          rewrite (found_row_prefix p1 p2 m b n Hwf1 Hext Hf)
      end
    | rewrite (matchesPattern_prefix p1 p2) by done
    | rewrite (special_prefix p1 p2) by done
    | rewrite Hself by bound_below Hwf1
    | eff_step ]; done.
Qed.

Lemma traverse_prefix budget p1 p2 :
  well_formed p1 -> well_formed p2 -> extends_table p1 p2 ->
  forall m u d md ln s, ln <= Z.of_nat (length (data p1)) + 1 ->
    traverse budget p2 m u d md ln s = traverse budget p1 m u d md ln s.
Proof.
  intros Hwf1 Hwf2 Hext.
  induction budget as [|budget IH]; intros m u d md ln s Hln; simpl; [done|].
  destruct (d >? md); [done|]. by apply traverse_body_prefix.
Qed.

Lemma resolve_row_prefix p1 p2 i r st :
  well_formed p1 -> well_formed p2 -> extends_table p1 p2 ->
  data p1 !! i = Some r ->
  resolve_row p2 r st = resolve_row p1 r st.
Proof.
  intros Hwf1 Hwf2 Hext Hr.
  assert (Hln : or_int (LN r) 0 <= Z.of_nat (length (data p1)) + 1).
  { rewrite (well_formed_or_int p1 i r Hwf1 Hr), (proj1 Hwf1 i r Hr).
    apply lookup_lt_Some in Hr. lia. }
  unfold resolve_row, _traverseHierarchyUnified. unfold_eff.
  repeat first
    [ rewrite (traverse_prefix _ p1 p2) by done
    | rewrite (matchesPattern_prefix p1 p2) by done
    | rewrite (special_prefix p1 p2) by done
    | eff_step ]; done.
Qed.

(** X12: rows added after the last row of a table change nothing above
    them. When [process] completes on a table and on the same table with
    further rows appended, the rows of the shorter table come out of both
    calls with the same fields and the same derived columns. *)
Theorem appended_rows_leave_earlier_results `{RegExpEngine} (input extra : list Row)
  (pattern : string) (rules : SpecialRules) (p1' p2' : Processor)
  (st1 st1' st2 st2' : EngineState) :
  let p1 := constructor input pattern rules in
  let p2 := constructor (input ++ extra) pattern rules in
  process p1 st1 = (Normal p1', st1') ->
  process p2 st2 = (Normal p2', st2') ->
  take (length input) (data p2') = data p1'.
Proof.
  intros p1 p2 Hproc1 Hproc2.
  assert (Hwf1 : well_formed p1) by apply constructor_well_formed.
  assert (Hwf2 : well_formed p2) by apply constructor_well_formed.
  assert (Hext : extends_table p1 p2) by apply constructor_extends.
  assert (Hlen1 : length (data p1) = length input).
  { simpl. unfold _reindexLN, json_clone.
    rewrite <- (length_map json_clone_row input).
    generalize (map json_clone_row input) 1.
    induction l as [|r l IH]; intros s; simpl; [done|]. by rewrite IH. }
  apply list_eq. intros i.
  destruct (decide (i < length input)%nat) as [Hi|Hi].
  - rewrite lookup_take_lt by done.
    destruct (lookup_lt_is_Some_2 (data p1) i ltac:(lia)) as [r Hr].
    destruct (process_row_result p1 p1' st1 st1' i r Hproc1 Hr) as (sc1 & tu1 & Hres1 & ->).
    destruct (process_row_result p2 p2' st2 st2' i r Hproc2 (row_prefix p1 p2 i r Hext Hr))
      as (sc2 & tu2 & Hres2 & ->).
    rewrite (resolve_row_prefix p1 p2 i r initial_state Hwf1 Hwf2 Hext Hr) in Hres2.
    congruence.
  - rewrite lookup_take_ge by lia. symmetry. apply lookup_ge_None.
    rewrite (process_length p1 p1' st1 st1' Hproc1). lia.
Qed.

Lemma appended_rows_leave_earlier_results_witness :
  take (length Samples.scenario)
       (data (Samples.processed
                (constructor (H := literal_engine)
                   (Samples.scenario ++ [Samples.row 4 "N" "X1" 7%float]) "45" NoRules)))
  = data (Samples.processed Samples.scenario_processor).
Proof.
  apply (appended_rows_leave_earlier_results (H := literal_engine)
           Samples.scenario [Samples.row 4 "N" "X1" 7%float] "45" NoRules
           (Samples.processed Samples.scenario_processor)
           (Samples.processed
              (constructor (H := literal_engine)
                 (Samples.scenario ++ [Samples.row 4 "N" "X1" 7%float]) "45" NoRules))
           initial_state (snd (process Samples.scenario_processor initial_state))
           initial_state
           (snd (process
                   (constructor (H := literal_engine)
                      (Samples.scenario ++ [Samples.row 4 "N" "X1" 7%float]) "45" NoRules)
                   initial_state))).
  - vm_compute. reflexivity.
  - vm_compute. reflexivity.
Defined.

(** ** The depth cap *)

Lemma traverse_body_depth self1 self2 p startMaterial initialUsage
    depth1 maxDepth1 depth2 maxDepth2 currentLN st :
  well_formed p ->
  (forall m u ln s, 1 <= ln < currentLN ->
     self1 m u (depth1 + 1) maxDepth1 ln s = self2 m u (depth2 + 1) maxDepth2 ln s) ->
  traverse_body self1 p startMaterial initialUsage depth1 maxDepth1 currentLN st
  = traverse_body self2 p startMaterial initialUsage depth2 maxDepth2 currentLN st.
Proof.
  intros Hwf Hself. unfold_eff.
  repeat first [ rewrite Hself by bound_below Hwf | eff_step ]; done.
Qed.

Lemma traverse_depth_irrelevant p (n : nat) :
  well_formed p ->
  forall m u depth1 maxDepth1 depth2 maxDepth2 ln s,
    ln <= Z.of_nat n + 1 ->
    Z.of_nat n <= maxDepth1 - depth1 -> Z.of_nat n <= maxDepth2 - depth2 ->
    _traverseHierarchyUnified p m u depth1 maxDepth1 ln s
    = _traverseHierarchyUnified p m u depth2 maxDepth2 ln s.
Proof.
  intros Hwf. induction n as [|n IH]; intros m u d1 md1 d2 md2 ln s Hln H1 H2.
  - rewrite !traverse_unfold by lia. apply traverse_body_depth; [done|]. lia.
  - rewrite !traverse_unfold by lia. apply traverse_body_depth; [done|].
    intros m' u' ln' s' Hln'. apply IH; lia.
Qed.

(** X13: the depth cap is out of reach on short chains. Every recursive
    call of the traversal passes a sequence bound that is at least 1 and
    strictly smaller than its own, so a traversal entered with bound
    [currentLN] and at least [currentLN - 1] levels left under the cap
    returns the same result and leaves the same state whatever the cap: with
    the cap of 20 that [process] passes, no row among the first 21 of a table
    is affected by it. *)
Theorem depth_cap_out_of_reach `{RegExpEngine} (input : list Row) (pattern : string)
  (rules : SpecialRules) (startMaterial : string) (initialUsage : float)
  (depth1 maxDepth1 depth2 maxDepth2 currentLN : Z) (st : EngineState) :
  let p := constructor input pattern rules in
  depth1 <= maxDepth1 -> depth2 <= maxDepth2 ->
  currentLN - 1 <= maxDepth1 - depth1 ->
  currentLN - 1 <= maxDepth2 - depth2 ->
  _traverseHierarchyUnified p startMaterial initialUsage depth1 maxDepth1 currentLN st
  = _traverseHierarchyUnified p startMaterial initialUsage depth2 maxDepth2 currentLN st.
Proof.
  intros p Hd1 Hd2 H1 H2.
  apply (traverse_depth_irrelevant p (Z.to_nat (currentLN - 1)));
    [apply constructor_well_formed|lia..].
Qed.

Lemma depth_cap_out_of_reach_witness :
  _traverseHierarchyUnified Samples.scenario_processor "45ABC" 5%float 0 20 3
                            initial_state
  = _traverseHierarchyUnified Samples.scenario_processor "45ABC" 5%float 0 2 3
                              initial_state.
Proof.
  apply (depth_cap_out_of_reach (H := literal_engine) Samples.scenario "45" NoRules
           "45ABC" 5%float 0 20 0 2 3 initial_state); lia.
Defined.

(** ** Parent references that name no row *)

Lemma resolve_row_dangling `{RegExpEngine} p i r :
  well_formed p ->
  data p !! i = Some r ->
  1 < LV r ->
  matchesPattern p (Material r) = false ->
  _matchesLVSpecialRule p (LV r) (Material r) = Normal false ->
  (forall j rj, (j < i)%nat -> data p !! j = Some rj ->
                trim (Material rj) <> trim (Part_Number r)) ->
  fst (resolve_row p r initial_state)
  = Normal (if String.eqb (trim (Part_Number r)) "" then Material r
            else trim (Part_Number r), unit_usage r).
Proof.
  intros Hwf Hr Hlv Hpat Hsp Habsent.
  unfold resolve_row.
  destruct (Z.leb_spec (LV r) 1); [lia|].
  rewrite Hpat. unfold bind at 1, lift. rewrite Hsp.
  destruct (String.eqb_spec (Part_Number r) "") as [Hpn|Hpn].
  { rewrite Hpn. done. }
  unfold_eff.
  destruct (matchesPattern p (trim (Part_Number r))) eqn:Hm; cbv beta iota zeta.
  all: match goal with
  | |- context [_traverseHierarchyUnified ?q ?m ?u ?d ?md ?ln ?s] =>
      let Hf := fresh "Hf" in
      pose proof (traverse_absent_above q i r m u s Hwf Hr Habsent) as Hf;
      destruct (_traverseHierarchyUnified q m u d md ln s) as [[[t u']|e] s'];
      simpl in Hf; simplify_eq
  end; simpl.
  - destruct (String.eqb_spec (trim (Part_Number r)) "") as [He|He]; [|done].
    rewrite He in Hm. discriminate Hm.
  - done.
Qed.

(** X14: a parent reference that names no row above. For a row at a level
    above 1 that neither matches the primary pattern nor satisfies the special rule,
    and whose trimmed parent reference is the code of no row above it,
    [process] writes the trimmed parent reference itself as [SYS_CPN] (the
    row's own material when the reference is blank) and the row's own unit
    usage as [Ttl. Usage]. *)
Theorem dangling_parent_reference_is_kept `{RegExpEngine} (input : list Row)
  (pattern : string) (rules : SpecialRules) (p' : Processor) (st st' : EngineState)
  (i : nat) (r : Row) :
  let p := constructor input pattern rules in
  process p st = (Normal p', st') ->
  data p !! i = Some r ->
  1 < LV r ->
  matchesPattern p (Material r) = false ->
  _matchesLVSpecialRule p (LV r) (Material r) = Normal false ->
  (forall j rj, (j < i)%nat -> data p !! j = Some rj ->
                trim (Material rj) <> trim (Part_Number r)) ->
  data p' !! i
  = Some (set_derived r
            (if String.eqb (trim (Part_Number r)) "" then Material r
             else trim (Part_Number r))
            (unit_usage r)).
Proof.
  intros p Hproc Hr Hlv Hpat Hsp Habsent.
  assert (Hwf : well_formed p) by apply constructor_well_formed.
  destruct (process_row_result p p' st st' i r Hproc Hr) as (sc & tu & Hres & ->).
  rewrite (resolve_row_dangling p i r Hwf Hr Hlv Hpat Hsp Habsent) in Hres.
  by injection Hres as <- <-.
Qed.

Lemma dangling_parent_reference_is_kept_witness :
  data (Samples.processed (constructor (H := literal_engine) Samples.orphan "45" NoRules))
    !! 1%nat
  = Some (set_derived (mkRow 2 2 "A" "GONE" (Some 3%float) None None)
            (if String.eqb (trim (Part_Number (mkRow 2 2 "A" "GONE" (Some 3%float) None None))) ""
             then Material (mkRow 2 2 "A" "GONE" (Some 3%float) None None)
             else trim (Part_Number (mkRow 2 2 "A" "GONE" (Some 3%float) None None)))
            (unit_usage (mkRow 2 2 "A" "GONE" (Some 3%float) None None))).
Proof.
  apply (dangling_parent_reference_is_kept (H := literal_engine)
           Samples.orphan "45" NoRules
           (Samples.processed (constructor (H := literal_engine) Samples.orphan "45" NoRules))
           initial_state
           (snd (process (constructor (H := literal_engine) Samples.orphan "45" NoRules)
                         initial_state))
           1%nat (mkRow 2 2 "A" "GONE" (Some 3%float) None None)).
  - vm_compute. reflexivity.
  - reflexivity.
  - simpl. lia.
  - vm_compute. reflexivity.
  - reflexivity.
  - intros j rj Hj. destruct j as [|j]; [|lia].
    intros [= <-]. vm_compute. discriminate.
Defined.

(** ** Lookup keys with surrounding white space *)

Lemma trimEnd_idempotent s : trimEnd (trimEnd s) = trimEnd s.
Proof.
  induction s as [|c s IH]; simpl; [done|].
  destruct (trimEnd s) as [|d t] eqn:E.
  - destruct (is_ws c) eqn:Hc; simpl; [done|]. by rewrite Hc.
  - change (trimEnd (String c (String d t))) with
      (match trimEnd (String d t) with
       | EmptyString => if is_ws c then EmptyString else String c EmptyString
       | String a t0 => String c (String a t0)
       end).
    by rewrite IH.
Qed.

Lemma trim_idempotent s : trim (trim s) = trim s.
Proof.
  assert (Hstart : trimStart (trim s) = trim s).
  { destruct (trim s) as [|c t] eqn:E; [done|].
    simpl. by rewrite (trim_no_leading_ws s c t E). }
  unfold trim at 1. rewrite Hstart. unfold trim. apply trimEnd_idempotent.
Qed.

Lemma untrimmed_not_found p m b :
  well_formed p -> trim m <> m -> _findMaterialBeforeLN p m b = Normal None.
Proof.
  intros Hwf Hm.
  destruct (find_spec p m b Hwf) as ([n|] & Hres & Hspec); [|done].
  destruct Hspec as (rn & _ & Hrn & _).
  destruct Hm. rewrite <- Hrn. apply trim_idempotent.
Qed.

Lemma traverse_untrimmed p m u d md ln st :
  well_formed p -> trim m <> m ->
  fst (_traverseHierarchyUnified p m u d md ln st) = Normal (m, u).
Proof.
  intros Hwf Hm. unfold _traverseHierarchyUnified.
  destruct (Z.to_nat (md - d + 1)) as [|budget]; simpl;
    (destruct (d >? md); [done|]); [done|].
  unfold traverse_body. unfold_eff. unfold find_before.
  by rewrite (untrimmed_not_found p m ln Hwf Hm).
Qed.

(** X15: codes are indexed trimmed but looked up as given. On a constructed
    processor a lookup key that carries leading or trailing white space finds
    no row, and a traversal started from such a key returns the key and the
    usage it was given. So a row at a level above 1 that is its own terminal
    (pattern or special rule) and whose material is written with surrounding
    white space gets its own unit usage as [Ttl. Usage], whatever lies above
    it. *)
Theorem untrimmed_code_is_never_found `{RegExpEngine} (input : list Row)
  (pattern : string) (rules : SpecialRules) (m : string) :
  let p := constructor input pattern rules in
  trim m <> m ->
  (forall b, _findMaterialBeforeLN p m b = Normal None) /\
  (forall u depth maxDepth currentLN st,
     fst (_traverseHierarchyUnified p m u depth maxDepth currentLN st) = Normal (m, u)) /\
  (forall p' st st' i r,
     process p st = (Normal p', st') ->
     data p !! i = Some r -> Material r = m -> 1 < LV r ->
     matchesPattern p m = true \/ _matchesLVSpecialRule p (LV r) m = Normal true ->
     data p' !! i = Some (set_derived r m (unit_usage r))).
Proof.
  intros p Hm.
  assert (Hwf : well_formed p) by apply constructor_well_formed.
  split; [|split].
  - intros b. by apply untrimmed_not_found.
  - intros u d md ln st. by apply traverse_untrimmed.
  - intros p' st st' i r Hproc Hr <- Hlv Hterm.
    destruct (process_row_result p p' st st' i r Hproc Hr) as (sc & tu & Hres & ->).
    destruct (resolve_row_terminal p i r sc tu Hwf Hr Hlv Hterm Hres) as [-> Htu].
    rewrite Htu; [done|].
    intros j rj _ _ Hj. destruct Hm. rewrite <- Hj. apply trim_idempotent.
Qed.

Lemma untrimmed_code_is_never_found_witness :
  (forall b, _findMaterialBeforeLN Samples.scenario_processor " 45ABC" b = Normal None) /\
  (forall u depth maxDepth currentLN st,
     fst (_traverseHierarchyUnified Samples.scenario_processor " 45ABC" u
            depth maxDepth currentLN st) = Normal (" 45ABC", u)) /\
  (forall p' st st' i r,
     process Samples.scenario_processor st = (Normal p', st') ->
     data Samples.scenario_processor !! i = Some r -> Material r = " 45ABC" -> 1 < LV r ->
     matchesPattern Samples.scenario_processor " 45ABC" = true \/
     _matchesLVSpecialRule Samples.scenario_processor (LV r) " 45ABC" = Normal true ->
     data p' !! i = Some (set_derived r " 45ABC" (unit_usage r))).
Proof.
  apply (untrimmed_code_is_never_found (H := literal_engine)
           Samples.scenario "45" NoRules " 45ABC").
  vm_compute. discriminate.
Defined.

(** ** What makes construction fail *)

Lemma display_each_throws rules :
  display_each rules = Thrown TypeError
  <-> Exists (fun r => rule_prefix r = None) rules.
Proof.
  induction rules as [|r rules IH]; simpl.
  - split; [done|]. by intros ?%Exists_nil.
  - unfold rule_display. rewrite Exists_cons.
    destruct (rule_prefix r) as [pfx|]; [|by split; [left|]].
    rewrite IH. split; [by right|]. by intros [|].
Qed.

Lemma printStats_throws p :
  _printStats p = Thrown TypeError
  <-> Exists (fun r => rule_prefix r = None) (rules_of (lvSpecialRules p)).
Proof.
  unfold _printStats. destruct (lvSpecialRules p) as [|r|rs]; simpl.
  - split; [done|]. by intros ?%Exists_nil.
  - unfold rule_display. rewrite Exists_cons.
    destruct (rule_prefix r) as [pfx|]; [|by split; [left|]].
    split; [done|]. by intros [|?%Exists_nil].
  - apply display_each_throws.
Qed.

Lemma resolve_rows_complete p rows st :
  Forall (fun r => is_Some (rule_prefix r)) (rules_of (lvSpecialRules p)) ->
  exists results st', resolve_rows p rows st = (Normal results, st').
Proof.
  intros Hwell. revert st.
  induction rows as [|r rows IH]; intros s; simpl; unfold bind, ret; [eauto|].
  destruct (resolve_row_completes p r s Hwell) as (x & s1 & ->).
  destruct (IH s1) as (xs & s2 & ->). eauto.
Qed.

(** X16: what makes construction fail. The [new] expression throws exactly
    when some configured rule has no prefix string, because [_printStats],
    the constructor's last statement, reads [prefix.split] of every rule
    outside any [try]; neither the table nor the pattern can make it throw.
    When it completes, it returns the processor whose fields the constructor
    assigned, and [process] never throws on that processor. *)
Theorem construction_fails_only_on_rule_without_prefix `{RegExpEngine}
  (input : list Row) (pattern : string) (rules : SpecialRules) :
  (BOMHierarchyProcessor_new input pattern rules
   = Normal (constructor input pattern rules)
   <-> Forall (fun r => is_Some (rule_prefix r)) (rules_of rules)) /\
  (BOMHierarchyProcessor_new input pattern rules = Thrown TypeError
   <-> Exists (fun r => rule_prefix r = None) (rules_of rules)) /\
  (forall p, BOMHierarchyProcessor_new input pattern rules = Normal p ->
     p = constructor input pattern rules /\
     forall st, exists p' st', process p st = (Normal p', st')).
Proof.
  split; [|split].
  - split; [|apply new_completes].
    by intros [_ Hwell]%new_returns_constructed.
  - rewrite <- (printStats_throws (constructor input pattern rules)).
    unfold BOMHierarchyProcessor_new.
    by destruct (_printStats (constructor input pattern rules)) as [[]|[]].
  - intros p [-> Hwell]%new_returns_constructed. split; [done|]. intros st.
    destruct (resolve_rows_complete (constructor input pattern rules)
                (data (constructor input pattern rules)) st Hwell)
      as (results & s' & Hres).
    unfold process, bind, ret. rewrite Hres. eauto.
Qed.
